(** * note_taker backend: result envelope, generic SQLite repository and
      session-note service

    A shallow embedding of
      - backend/utils/result.py           (Result, Payload)
      - backend/models/*.py               (the four pydantic models)
      - backend/database.py               (the four tables)
      - backend/sqlite_repository.py      (BaseSQLiteRepository, BaseSQLiteService)
      - backend/services/*.py             (the four services, validated creation
                                           and the detail-joined reads)
    followed by the properties of the specification that are settled on it.

    Python objects are dynamically typed, so the embedding uses one universe of
    scalar values for table cells and model fields, and one universe of
    objects for what a Result carries.  Dictionaries with string keys are
    [gmap string _]; tables are lists of rows in storage order. *)

From stdpp Require Import gmap strings list pretty sorting.

Local Open Scope string_scope.
Local Open Scope list_scope.
Local Open Scope Z_scope.
Set Warnings "-register-all".

(** ** Python values *)

(** [datetime.date]. *)
Record date := mk_date { year : Z; month : Z; day : Z }.

(** [datetime.datetime]; [tzinfo] is the UTC offset in seconds of an aware
    datetime and [None] for a naive one. *)
Record datetime := mk_datetime {
  dt_date : date;
  hour : Z;
  minute : Z;
  second : Z;
  microsecond : Z;
  tzinfo : option Z
}.

(** Scalar values: what a model field or a table cell holds. *)
Inductive value :=
| VNone
| VBool (b : bool)
| VInt (z : Z)
| VStr (s : string)
| VDate (d : date)
| VDateTime (d : datetime).

(** A dictionary with string keys and scalar values: a row mapping, the
    output of [model_dump], the fields of a model instance. *)
Abbreviation dict := (gmap string value).

(** What a [Result] carries in [data]. *)
Inductive object :=
| Scalar (v : value)
| Model (cls : string) (fields : dict)
| Dict (d : dict)
| List (l : list object).

Abbreviation ONone := (Scalar VNone).

#[global] Instance date_eq_dec : EqDecision date.
Proof. solve_decision. Defined.
#[global] Instance datetime_eq_dec : EqDecision datetime.
Proof. solve_decision. Defined.
#[global] Instance value_eq_dec : EqDecision value.
Proof. solve_decision. Defined.

(** Python truthiness of a scalar ([if v], [v or d]). *)
Definition truthy (v : value) : bool :=
  match v with
  | VNone => false
  | VBool b => b
  | VInt z => negb (z =? 0)
  | VStr s => negb (String.eqb s "")
  | VDate _ => true
  | VDateTime _ => true
  end.

(** Zero-padded decimal, as the [%02d]-style fields of [isoformat]. *)
Fixpoint zeros (n : nat) : string :=
  match n with
  | O => ""
  | S n => "0" +:+ zeros n
  end.

Definition pad (width : nat) (z : Z) : string :=
  let s := pretty (Z.abs z) in
  (if z <? 0 then "-" else "") +:+ zeros (width - String.length s) +:+ s.

Definition date_isoformat (d : date) : string :=
  pad 4 (year d) +:+ "-" +:+ pad 2 (month d) +:+ "-" +:+ pad 2 (day d).

Definition utcoffset_format (off : Z) : string :=
  let a := Z.abs off in
  (if off <? 0 then "-" else "+") +:+ pad 2 (a / 3600) +:+ ":" +:+
  pad 2 ((a / 60) mod 60) +:+
  (if a mod 60 =? 0 then "" else ":" +:+ pad 2 (a mod 60)).

(** [datetime.isoformat(sep)]. *)
Definition datetime_format (sep : string) (d : datetime) : string :=
  date_isoformat (dt_date d) +:+ sep +:+
  pad 2 (hour d) +:+ ":" +:+ pad 2 (minute d) +:+ ":" +:+ pad 2 (second d) +:+
  (if microsecond d =? 0 then "" else "." +:+ pad 6 (microsecond d)) +:+
  match tzinfo d with
  | None => ""
  | Some off => utcoffset_format off
  end.

Definition isoformat (d : datetime) : string := datetime_format "T" d.

(** [str(v)], as an f-string renders a scalar. *)
Definition py_str (v : value) : string :=
  match v with
  | VNone => "None"
  | VBool b => if b then "True" else "False"
  | VInt z => pretty z
  | VStr s => s
  | VDate d => date_isoformat d
  | VDateTime d => datetime_format " " d
  end.

(** ** utils/result.py *)

(** [class Payload(StrEnum)]: the members are their string values. *)
Module Payload.
Definition payload : string := "data".
Definition success : string := "success".
Definition error : string := "error".
Definition status_code : string := "status_code".
End Payload.

Record Result := mkResult {
  success : bool;
  data : object;
  error : option string;
  status_code : Z
}.

(** [Result.__init__(success, data=None, error=None, status_code=None)].
    An omitted argument is its default: [ONone], [None], [None].
    [status_code or d] takes [d] when the code is [None] or [0]. *)
Definition Result_init (success : bool) (data : object) (error : option string)
    (status_code : option Z) : Result :=
  {| success := success;
     data := if success then data else ONone;
     error := if negb success then error else None;
     status_code :=
       match status_code with
       | Some c => if c =? 0 then (if success then 200 else 500) else c
       | None => if success then 200 else 500
       end |}.

(** [Result.success_result(data=None)]. *)
Definition success_result (data : object) : Result :=
  Result_init true data None None.

(** [Result.error_result(error, status_code=400)]; [None] for [status_code]
    is the omitted argument, which Python replaces by the default 400. *)
Definition error_result (error : string) (status_code : option Z) : Result :=
  Result_init false ONone (Some error) (Some (default 400 status_code)).

(** What [to_dict] puts under the [error] key: a [str] or [None]. *)
Definition error_value (e : option string) : object :=
  match e with
  | Some s => Scalar (VStr s)
  | None => ONone
  end.

(** [Result.to_dict]. *)
Definition to_dict (self : Result) : gmap string object :=
  let result : gmap string object :=
    <[Payload.status_code := Scalar (VInt (status_code self))]>
      (<[Payload.success := Scalar (VBool (success self))]> ∅) in
  if success self
  then <[Payload.payload := data self]> result
  else <[Payload.error := error_value (error self)]> result.

(** [Result.to_response]. *)
Definition to_response (self : Result) : gmap string object :=
  if success self
  then {[ Payload.payload := data self ]}
  else {[ Payload.error := error_value (error self) ]}.

(** ** models/*.py *)

(** The annotation of a field: [int], [str], [date], [datetime]. *)
Inductive annotation := TInt | TStr | TDate | TDateTime.

(** A field [name: T] is required; [name: Optional[T] = None] is optional
    with default [None]. *)
Record FieldInfo := Field {
  f_name : string;
  f_type : annotation;
  f_optional : bool
}.

(** A pydantic model class. An instance of it is [Model cls_name fields]
    with one entry of [fields] per declared field. *)
Record BaseModel := ModelClass {
  cls_name : string;
  model_fields : list FieldInfo
}.

Definition Bcba : BaseModel :=
  ModelClass "Bcba" [Field "id" TInt true; Field "name" TStr false].

Definition Clinic : BaseModel :=
  ModelClass "Clinic"
    [Field "id" TInt true; Field "name" TStr false; Field "address" TStr true].

Definition Patient : BaseModel :=
  ModelClass "Patient"
    [Field "id" TInt true; Field "first_name" TStr false;
     Field "last_name" TStr false; Field "DOB" TDate false;
     Field "ICD" TStr true; Field "address" TStr true].

Definition SessionNote : BaseModel :=
  ModelClass "SessionNote"
    [Field "id" TInt true; Field "bcba" TInt false; Field "patient" TInt false;
     Field "clinic" TInt true; Field "apt_date" TDateTime false;
     Field "duration" TInt true; Field "notes" TStr true].

(** A raised exception, by its [str(e)]; [inl e] is a raise and [inr a] a
    normal return. The texts of library exceptions are indicative only. *)
Definition exn := string.

Definition has_type (t : annotation) (v : value) : bool :=
  match t, v with
  | TInt, VInt _ | TStr, VStr _ | TDate, VDate _ | TDateTime, VDateTime _ => true
  | _, _ => false
  end.

(** Validation of one field of [model_validate(data)]: a missing key takes
    the default of an optional field; [None] is accepted by an optional field
    only; any other input must have the annotated type (pydantic's lax
    coercions between types are not modelled: they raise here). *)
Definition validate_field (data : dict) (f : FieldInfo) : exn + value :=
  match data !! f_name f with
  | None | Some VNone =>
      if f_optional f then inr VNone
      else inl ("validation error: " +:+ f_name f +:+ " is required")
  | Some v =>
      if has_type (f_type f) v then inr v
      else inl ("validation error: " +:+ f_name f +:+ " has the wrong type")
  end.

Fixpoint validate_fields (fs : list FieldInfo) (data : dict) : exn + dict :=
  match fs with
  | [] => inr ∅
  | f :: fs =>
      match validate_field data f with
      | inl e => inl e
      | inr v =>
          match validate_fields fs data with
          | inl e => inl e
          | inr m => inr (<[f_name f := v]> m)
          end
      end
  end.

(** [cls.model_validate(data)]; keys of [data] that are no field are ignored. *)
Definition model_validate (cls : BaseModel) (data : dict) : exn + object :=
  match validate_fields (model_fields cls) data with
  | inl e => inl e
  | inr m => inr (Model (cls_name cls) m)
  end.

(** [model] holds the fields of an instance of [cls]: exactly the declared
    fields, each of its annotated type, or [None] where it is optional (what
    validation accepts and returns unchanged). *)
Definition instance_of (cls : BaseModel) (model : dict) : Prop :=
  validate_fields (model_fields cls) model = inr model.

#[global] Instance instance_of_dec cls model : Decision (instance_of cls model).
Proof. unfold instance_of. apply _. Defined.

(** [model.model_dump(exclude={'id'}, exclude_none=True)]. *)
Definition model_dump_exclude_id_none (model : dict) : dict :=
  filter (λ kv, kv.1 ≠ "id" ∧ kv.2 ≠ VNone) model.

(** ** database.py *)

Inductive coltype := Integer | Text | String_ (length : nat) | Date | DateTime.

Record Column := mk_column {
  c_name : string;
  c_type : coltype;
  primary_key : bool;
  nullable : bool
}.

Inductive table_name := Bcbas | Patients | Clinics | SessionNotes.

#[global] Instance table_name_eq_dec : EqDecision table_name.
Proof. solve_decision. Defined.

Record Table := mk_table {
  name : table_name;
  columns : list Column
}.

(** [Column('id', Integer, primary_key=True, autoincrement=True)]. On SQLite
    SQLAlchemy emits [id INTEGER NOT NULL, PRIMARY KEY (id)] for it: the
    AUTOINCREMENT keyword is only emitted for a table declared with
    [sqlite_autoincrement=True], which no table of database.py (or of
    tests/conftest.py) is. *)
Definition id_column : Column := mk_column "id" Integer true false.

Module database.

Definition bcbas : Table :=
  mk_table Bcbas [id_column; mk_column "name" Text false false].

Definition patients : Table :=
  mk_table Patients
    [id_column;
     mk_column "first_name" Text false false;
     mk_column "last_name" Text false false;
     mk_column "DOB" Date false false;
     mk_column "ICD" (String_ 15) false true;
     mk_column "address" Text false true].

Definition clinics : Table :=
  mk_table Clinics
    [id_column;
     mk_column "name" Text false false;
     mk_column "address" Text false true].

Definition session_notes : Table :=
  mk_table SessionNotes
    [id_column;
     mk_column "bcba" Integer false false;
     mk_column "patient" Integer false false;
     mk_column "clinic" Integer false true;
     mk_column "apt_date" DateTime false false;
     mk_column "duration" Integer false true;
     mk_column "notes" Text false true].

End database.

(** ** The storage engine

    The stored state is the rows of the four tables, each row the mapping
    from the table's column names to cells, in storage order. An SQLite
    INTEGER is a signed 64-bit integer: the sqlite3 driver raises
    [OverflowError] when it is handed a Python [int] outside that range as a
    bound parameter, so no such integer reaches a table. Foreign keys are not
    enforced (SQLite does not unless the pragma is switched on, which the
    code never does). *)

Record Database := mk_database {
  bcbas_rows : list dict;
  patients_rows : list dict;
  clinics_rows : list dict;
  session_notes_rows : list dict
}.

Definition rows (t : table_name) (d : Database) : list dict :=
  match t with
  | Bcbas => bcbas_rows d
  | Patients => patients_rows d
  | Clinics => clinics_rows d
  | SessionNotes => session_notes_rows d
  end.

Definition set_rows (t : table_name) (rs : list dict) (d : Database) : Database :=
  match t with
  | Bcbas => mk_database rs (patients_rows d) (clinics_rows d) (session_notes_rows d)
  | Patients => mk_database (bcbas_rows d) rs (clinics_rows d) (session_notes_rows d)
  | Clinics => mk_database (bcbas_rows d) (patients_rows d) rs (session_notes_rows d)
  | SessionNotes => mk_database (bcbas_rows d) (patients_rows d) (clinics_rows d) rs
  end.

(** The statements handed to [conn.execute], in the order of the calls. *)
Inductive statement :=
| SelectWhere (t : table_name) (col : string) (v : value)
| SelectAll (t : table_name)
| SelectDetails (col : string) (v : value)
| InsertValues (t : table_name) (values : dict)
| UpdateValues (t : table_name) (record_id : Z) (values : dict)
| DeleteWhere (t : table_name) (record_id : Z).

Definition is_write (s : statement) : bool :=
  match s with
  | InsertValues _ _ | UpdateValues _ _ _ | DeleteWhere _ _ => true
  | _ => false
  end.

(** What the code runs in: the database, the journal of the statements
    handed to the engine so far, and the current UTC wall-clock time. *)
Record World := mk_world {
  db : Database;
  journal : list statement;
  clock : datetime
}.

(** A computation that reads and writes the world. *)
Definition M (A : Type) : Type := World → A * World.

Definition ret {A} (a : A) : M A := λ w, (a, w).

Definition bind {A B} (m : M A) (k : A → M B) : M B :=
  λ w, let (a, w') := m w in k a w'.

Notation "'do' x <- m ; k" := (bind m (λ x, k))
  (at level 10, x name, m at level 100, k at level 200).

Definition log (s : statement) : M unit :=
  λ w, (tt, mk_world (db w) (journal w ++ [s]) (clock w)).

Definition commit (t : table_name) (rs : list dict) : M unit :=
  λ w, (tt, mk_world (set_rows t rs (db w)) (journal w) (clock w)).

Definition table_rows (t : table_name) : M (list dict) :=
  λ w, (rows t (db w), w).

(** [row.col]: the cell of a row ([None] for NULL). *)
Definition attr (r : dict) (col : string) : value := default VNone (r !! col).

(** SQL [a = b] in a WHERE or ON clause: never true on NULL. *)
Definition sql_eq (a b : value) : bool :=
  match a, b with
  | VNone, _ | _, VNone => false
  | _, _ => bool_decide (a = b)
  end.

Definition naive (d : datetime) : datetime :=
  mk_datetime (dt_date d) (hour d) (minute d) (second d) (microsecond d) None.

(** [-2**63 <= z < 2**63]. *)
Definition int64 (z : Z) : bool :=
  (-9223372036854775808 <=? z) && (z <? 9223372036854775808).

(** What the sqlite3 driver accepts as a bound parameter: every value but
    an [int] outside the signed 64-bit range. *)
Definition bindable (v : value) : bool :=
  match v with
  | VInt z => int64 z
  | _ => true
  end.

(** [str(e)] of the [OverflowError] that the driver raises otherwise. *)
Definition OverflowError : exn :=
  "Python int too large to convert to SQLite INTEGER".

(** Every value of the mapping can be bound. *)
Definition storable (r : dict) : Prop :=
  map_Forall (λ _ v, bindable v = true) r.

#[global] Instance storable_dec r : Decision (storable r).
Proof. unfold storable. apply _. Defined.

(** How a bound parameter reaches a column. SQLite has no date types:
    SQLAlchemy stores a [DateTime] as text without a UTC offset, so the
    timezone of an aware datetime is dropped (tests/test_session_notes.py
    compares [apt_date.replace(tzinfo=timezone.utc)] for this reason) and a
    date is stored as its midnight, and a [Date] as the date part. The other
    column types have no processor. *)
Definition bind_processor (ty : coltype) (v : value) : exn + value :=
  match ty, v with
  | _, VNone => inr VNone
  | DateTime, VDateTime d => inr (VDateTime (naive d))
  | DateTime, VDate d => inr (VDateTime (mk_datetime d 0 0 0 0 None))
  | DateTime, _ =>
      inl "SQLite DateTime type only accepts Python datetime and date objects as input."
  | Date, VDate d => inr (VDate d)
  | Date, VDateTime d => inr (VDate (dt_date d))
  | Date, _ => inl "SQLite Date type only accepts Python date objects as input."
  | _, _ => inr v
  end.

(** The supplied values, each bound by the type of its column. *)
Fixpoint bind_values (cols : list Column) (values : dict) : exn + dict :=
  match cols with
  | [] => inr ∅
  | c :: cols =>
      match bind_values cols values with
      | inl e => inl e
      | inr m =>
          match values !! c_name c with
          | None => inr m
          | Some v =>
              match bind_processor (c_type c) v with
              | inl e => inl e
              | inr v' => inr (<[c_name c := v']> m)
              end
          end
      end
  end.

(** A row with every column NULL. *)
Definition null_row (cols : list Column) : dict :=
  list_to_map ((λ c, (c_name c, VNone)) <$> cols).

Definition column_names (t : Table) : gset string :=
  list_to_set (c_name <$> columns t).

(** The first NOT NULL column to which [r] gives NULL, if any. *)
Definition null_violation (cols : list Column) (r : dict) : option string :=
  c_name <$> List.find
    (λ c, negb (nullable c) && bool_decide (r !! c_name c = Some VNone)) cols.

Definition rowids (rs : list dict) : list Z :=
  omap (λ r, match r !! "id" with Some (VInt z) => Some z | _ => None end) rs.

(** The rowid SQLite gives to a row inserted without one into a table whose
    key is INTEGER PRIMARY KEY without AUTOINCREMENT: one more than the
    largest rowid in the table, and 1 for an empty table. *)
Definition next_rowid (rs : list dict) : Z :=
  match rowids rs with
  | [] => 1
  | z :: zs => foldr Z.max z zs + 1
  end.

(** [conn.execute(select(t).where(t.c.col == v)).fetchall()]; the driver
    raises when it cannot bind [v]. *)
Definition execute_select_where (t : Table) (col : string) (v : value)
    : M (exn + list dict) :=
  do _ <- log (SelectWhere (name t) col v);
  if negb (bindable v) then ret (inl OverflowError)
  else
    do rs <- table_rows (name t);
    ret (inr (List.filter (λ r, sql_eq (attr r col) v) rs)).

(** [conn.execute(select(t)).fetchall()]. *)
Definition execute_select_all (t : Table) : M (list dict) :=
  do _ <- log (SelectAll (name t));
  table_rows (name t).

(** [conn.execute(insert(t).values(...)).inserted_primary_key[0]]
    inside [engine.begin()]: the change is committed on a normal exit and
    nothing is written when the statement raises. The statement raises when
    a value cannot be bound, before any constraint is looked at. A table
    whose largest rowid is the largest 64-bit integer is full: SQLite then
    tries unused rowids at random and gives this error when it finds none.
    No create of the repository supplies an id, so a table only gets there
    after 2**63 - 1 inserts. *)
Definition execute_insert (t : Table) (values : dict) : M (exn + Z) :=
  do _ <- log (InsertValues (name t) values);
  do rs <- table_rows (name t);
  if negb (bool_decide (dom values ⊆ column_names t))
  then ret (inl "Unconsumed column names")
  else
    match bind_values (columns t) values with
    | inl e => ret (inl e)
    | inr bound =>
        if negb (bool_decide (storable bound)) then ret (inl OverflowError)
        else
        let r := bound ∪ null_row (columns t) in
        let insert_as (k : Z) : M (exn + Z) :=
          let r := <["id" := VInt k]> r in
          match null_violation (columns t) r with
          | Some c => ret (inl ("NOT NULL constraint failed: " +:+ c))
          | None => do _ <- commit (name t) (rs ++ [r]); ret (inr k)
          end in
        match attr r "id" with
        | VNone =>
            if int64 (next_rowid rs) then insert_as (next_rowid rs)
            else ret (inl "database or disk is full")
        | VInt k =>
            if bool_decide (k ∈ rowids rs)
            then ret (inl "UNIQUE constraint failed: id")
            else insert_as k
        | _ => ret (inl "datatype mismatch")
        end
    end.

(** [conn.execute(update(t).where(t.c.id == record_id).values(...))]
    inside [engine.begin()]: the cells named in [values] are overwritten in
    the matching rows, the other cells are kept. The statement raises, and
    nothing is written, when a value or the id cannot be bound. *)
Definition execute_update (t : Table) (record_id : Z) (values : dict)
    : M (exn + unit) :=
  do _ <- log (UpdateValues (name t) record_id values);
  do rs <- table_rows (name t);
  if negb (bool_decide (dom values ⊆ column_names t))
  then ret (inl "Unconsumed column names")
  else
    match bind_values (columns t) values with
    | inl e => ret (inl e)
    | inr bound =>
        if negb (bool_decide (storable bound) && int64 record_id)
        then ret (inl OverflowError)
        else
        let matches r := sql_eq (attr r "id") (VInt record_id) in
        match null_violation (columns t) bound with
        | Some c =>
            if existsb matches rs
            then ret (inl ("NOT NULL constraint failed: " +:+ c))
            else ret (inr tt)
        | None =>
            do _ <- commit (name t) ((λ r, if matches r then bound ∪ r else r) <$> rs);
            ret (inr tt)
        end
    end.

(** [conn.execute(delete(t).where(t.c.id == record_id))] inside
    [engine.begin()]. *)
Definition execute_delete (t : Table) (record_id : Z) : M (exn + unit) :=
  do _ <- log (DeleteWhere (name t) record_id);
  if negb (int64 record_id) then ret (inl OverflowError)
  else
    do rs <- table_rows (name t);
    do _ <- commit (name t)
              (List.filter (λ r, negb (sql_eq (attr r "id") (VInt record_id))) rs);
    ret (inr tt).

(** ** sqlite_repository.py *)

Record Repository := mk_repository {
  table : Table;
  model_class : BaseModel
}.

Module BaseSQLiteRepository.

(** [_row_to_model]: no row gives [None]; the loop over the date cells
    rewrites each with itself. *)
Definition _row_to_model (self : Repository) (row : option dict) : exn + object :=
  match row with
  | None => inr ONone
  | Some data => model_validate (model_class self) data
  end.

Definition _model_to_dict (model : dict) : dict :=
  model_dump_exclude_id_none model.

Definition get_by_id (self : Repository) (record_id : Z) : M Result :=
  do results <- execute_select_where (table self) "id" (VInt record_id);
  match results with
  | inl e => ret (error_result ("Error fetching record: " +:+ e) (Some 500))
  | inr results =>
      match head results with
      | None =>
          ret (error_result
                 ("Record with ID " +:+ pretty record_id +:+ " not found")
                 (Some 404))
      | Some result =>
          match _row_to_model self (Some result) with
          | inr model => ret (success_result model)
          | inl e => ret (error_result ("Error fetching record: " +:+ e) (Some 500))
          end
      end
  end.

(** The list comprehension of [get_all] and [get_by_bcba]. *)
Fixpoint rows_to_models (self : Repository) (results : list dict)
    : exn + list object :=
  match results with
  | [] => inr []
  | row :: results =>
      match _row_to_model self (Some row) with
      | inl e => inl e
      | inr model =>
          match rows_to_models self results with
          | inl e => inl e
          | inr models => inr (model :: models)
          end
      end
  end.

Definition get_all (self : Repository) : M Result :=
  do results <- execute_select_all (table self);
  match rows_to_models self results with
  | inr models => ret (success_result (List models))
  | inl e => ret (error_result ("Error fetching all records: " +:+ e) (Some 500))
  end.

Definition create (self : Repository) (model : dict) : M Result :=
  let data := _model_to_dict model in
  do result <- execute_insert (table self) data;
  match result with
  | inr record_id => ret (success_result (Scalar (VInt record_id)))
  | inl e => ret (error_result ("Error creating record: " +:+ e) (Some 500))
  end.

Definition update (self : Repository) (record_id : Z) (model : dict) : M Result :=
  do check_result <- get_by_id self record_id;
  if negb (success check_result) then ret check_result
  else
    let data := _model_to_dict model in
    do result <- execute_update (table self) record_id data;
    match result with
    | inr _ => ret (success_result ONone)
    | inl e => ret (error_result ("Error updating record: " +:+ e) (Some 500))
    end.

Definition delete (self : Repository) (record_id : Z) : M Result :=
  do check_result <- get_by_id self record_id;
  if negb (success check_result) then ret check_result
  else
    do result <- execute_delete (table self) record_id;
    match result with
    | inr _ => ret (success_result ONone)
    | inl e => ret (error_result ("Error deleting record: " +:+ e) (Some 500))
    end.

End BaseSQLiteRepository.

(** ** services/*.py *)

(** The four service classes; each has one instance ([SingletonMeta]),
    whose only attribute is its repository. *)
Inductive Service := BcbaService | PatientService | ClinicService | SessionNoteService.

Definition repository (self : Service) : Repository :=
  match self with
  | BcbaService => mk_repository database.bcbas Bcba
  | PatientService => mk_repository database.patients Patient
  | ClinicService => mk_repository database.clinics Clinic
  | SessionNoteService => mk_repository database.session_notes SessionNote
  end.

Module BaseSQLiteService.

Definition get_by_id (self : Service) (record_id : Z) : M Result :=
  BaseSQLiteRepository.get_by_id (repository self) record_id.

Definition get_all (self : Service) : M Result :=
  BaseSQLiteRepository.get_all (repository self).

Definition create (self : Service) (model : dict) : M Result :=
  BaseSQLiteRepository.create (repository self) model.

Definition update (self : Service) (record_id : Z) (model : dict) : M Result :=
  BaseSQLiteRepository.update (repository self) record_id model.

Definition delete (self : Service) (record_id : Z) : M Result :=
  BaseSQLiteRepository.delete (repository self) record_id.

End BaseSQLiteService.

(** ** services/session_note_service.py *)

Definition of_option {A} (f : A → value) (o : option A) : value :=
  match o with
  | Some a => f a
  | None => VNone
  end.

(** [SessionNote(bcba=..., patient=..., clinic=..., apt_date=...,
    duration=..., notes=...)]: [id] takes its default. *)
Definition new_SessionNote (bcba patient : Z) (clinic : option Z)
    (apt_date : datetime) (duration : option Z) (notes : option string) : dict :=
  list_to_map
    [("id", VNone); ("bcba", VInt bcba); ("patient", VInt patient);
     ("clinic", of_option VInt clinic); ("apt_date", VDateTime apt_date);
     ("duration", of_option VInt duration); ("notes", of_option VStr notes)].

(** [datetime.now(tz=timezone.utc)]. *)
Definition now_utc : M datetime :=
  λ w, let c := clock w in
       (mk_datetime (dt_date c) (hour c) (minute c) (second c) (microsecond c) (Some 0), w).

Definition create_with_validation (bcba patient_id : Z) (notes : option string)
    (clinic_id : option Z) (apt_date : option datetime) (duration : option Z)
    : M Result :=
  let create_session_note : M Result :=
    do apt <- match apt_date with
              | Some d => ret d
              | None => now_utc
              end;
    BaseSQLiteService.create SessionNoteService
      (new_SessionNote bcba patient_id clinic_id apt duration notes) in
  do bcba_result <- BaseSQLiteService.get_by_id BcbaService bcba;
  if negb (success bcba_result)
  then ret (error_result ("BCBA with ID " +:+ pretty bcba +:+ " does not exist") (Some 400))
  else
  do patient_result <- BaseSQLiteService.get_by_id PatientService patient_id;
  if negb (success patient_result)
  then ret (error_result
              ("Patient with ID " +:+ pretty patient_id +:+ " does not exist") (Some 400))
  else
  match clinic_id with
  | Some c =>
      do clinic_result <- BaseSQLiteService.get_by_id ClinicService c;
      if negb (success clinic_result)
      then ret (error_result
                  ("Clinic with ID " +:+ pretty c +:+ " does not exist") (Some 400))
      else create_session_note
  | None => create_session_note
  end.

Definition get_by_bcba (bcba_id : Z) : M Result :=
  let self := repository SessionNoteService in
  let failed (e : exn) : Result :=
    error_result
      ("Error fetching session notes for BCBA " +:+ pretty bcba_id +:+ ": " +:+ e)
      (Some 500) in
  do results <- execute_select_where (table self) "bcba" (VInt bcba_id);
  match results with
  | inl e => ret (failed e)
  | inr results =>
      match BaseSQLiteRepository.rows_to_models self results with
      | inr models => ret (success_result (List models))
      | inl e => ret (failed e)
      end
  end.

(** One row of the joined SELECT: the columns of the note and the labelled
    names of its patient, clinic (NULL without partner) and BCBA. *)
Definition joined_row (n p : dict) (c : option dict) (b : dict) : dict :=
  <["patient_first_name" := attr p "first_name"]>
  (<["patient_last_name" := attr p "last_name"]>
  (<["clinic_name" := from_option (λ c, attr c "name") VNone c]>
  (<["bcba_name" := attr b "name"]> n))).

(** The partners of a LEFT OUTER JOIN: one NULL partner when none matches. *)
Definition left_outer {A} (l : list A) : list (option A) :=
  match l with
  | [] => [None]
  | _ => Some <$> l
  end.

(** The rows that session_notes JOIN patients LEFT OUTER JOIN clinics JOIN
    bcbas gives for the note [n]. *)
Definition join_details (d : Database) (n : dict) : list dict :=
  p ← List.filter (λ p, sql_eq (attr n "patient") (attr p "id")) (patients_rows d);
  c ← left_outer (List.filter (λ c, sql_eq (attr n "clinic") (attr c "id")) (clinics_rows d));
  b ← List.filter (λ b, sql_eq (attr n "bcba") (attr b "id")) (bcbas_rows d);
  [joined_row n p c b].

(** The joined SELECT of both detail reads, restricted to the notes whose
    [col] equals [v]; the driver raises when it cannot bind [v]. *)
Definition execute_select_details (col : string) (v : value)
    : M (exn + list dict) :=
  do _ <- log (SelectDetails col v);
  if negb (bindable v) then ret (inl OverflowError)
  else
    λ w, (inr (n ← List.filter (λ n, sql_eq (attr n col) v)
                     (session_notes_rows (db w));
               join_details (db w) n), w).

(** [row.apt_date.isoformat() if row.apt_date else None]. *)
Definition apt_date_isoformat (v : value) : exn + value :=
  if truthy v then
    match v with
    | VDateTime d => inr (VStr (isoformat d))
    | VDate d => inr (VStr (date_isoformat d))
    | _ => inl "object has no attribute 'isoformat'"
    end
  else inr VNone.

(** The dictionary built from one joined row. *)
Definition note_with_details (row : dict) : exn + dict :=
  match apt_date_isoformat (attr row "apt_date") with
  | inl e => inl e
  | inr apt =>
      inr (list_to_map
        [("id", attr row "id");
         ("bcba", attr row "bcba");
         ("patient", attr row "patient");
         ("clinic", attr row "clinic");
         ("apt_date", apt);
         ("duration", attr row "duration");
         ("notes", attr row "notes");
         ("patient_name",
          VStr (py_str (attr row "patient_first_name") +:+ " " +:+
                py_str (attr row "patient_last_name")));
         ("clinic_name",
          if truthy (attr row "clinic_name") then attr row "clinic_name"
          else VStr "No Clinic");
         ("bcba_name", attr row "bcba_name")])
  end.

(** The loop of [get_by_bcba_with_details]. *)
Fixpoint notes_with_details (results : list dict) : exn + list object :=
  match results with
  | [] => inr []
  | row :: results =>
      match note_with_details row with
      | inl e => inl e
      | inr note_dict =>
          match notes_with_details results with
          | inl e => inl e
          | inr l => inr (Dict note_dict :: l)
          end
      end
  end.

Definition get_by_bcba_with_details (bcba_id : Z) : M Result :=
  let failed (e : exn) : Result :=
    error_result
      ("Error fetching session notes with details for BCBA " +:+
       pretty bcba_id +:+ ": " +:+ e) (Some 500) in
  do results <- execute_select_details "bcba" (VInt bcba_id);
  match results with
  | inl e => ret (failed e)
  | inr results =>
      match notes_with_details results with
      | inr l => ret (success_result (List l))
      | inl e => ret (failed e)
      end
  end.

Definition get_by_id_with_details (note_id : Z) : M Result :=
  let failed (e : exn) : Result :=
    error_result
      ("Error fetching session note with details for ID " +:+
       pretty note_id +:+ ": " +:+ e) (Some 500) in
  do results <- execute_select_details "id" (VInt note_id);
  match results with
  | inl e => ret (failed e)
  | inr results =>
      match head results with
      | None =>
          ret (error_result
                 ("Session note with ID " +:+ pretty note_id +:+ " not found")
                 (Some 404))
      | Some result =>
          match note_with_details result with
          | inr note => ret (success_result (Dict note))
          | inl e => ret (failed e)
          end
      end
  end.

(** * Specification vocabulary *)

(** No row of table [t] has the id [record_id]. *)
Definition absent (t : table_name) (record_id : Z) (d : Database) : Prop :=
  Forall (λ r, attr r "id" ≠ VInt record_id) (rows t d).

(** The world after the statements [ss] have been handed over by reads. *)
Definition logged (w : World) (ss : list statement) : World :=
  mk_world (db w) (journal w ++ ss) (clock w).

(** The statements handed over between two worlds. *)
Definition executed (w w' : World) : list statement :=
  drop (length (journal w)) (journal w').

Definition select_by_id (t : table_name) (record_id : Z) : statement :=
  SelectWhere t "id" (VInt record_id).

Definition not_found (record_id : Z) : Result :=
  error_result ("Record with ID " +:+ pretty record_id +:+ " not found") (Some 404).

(** What a read by id answers when the driver cannot bind the id. *)
Definition fetch_overflow : Result :=
  error_result ("Error fetching record: " +:+ OverflowError) (Some 500).

(** The values that [create] and [update] bind for [model] fit 64 bits. *)
Definition fits (model : dict) : Prop :=
  storable (BaseSQLiteRepository._model_to_dict model).

#[global] Instance fits_dec model : Decision (fits model).
Proof. unfold fits. apply _. Defined.



(** The SELECT of the existence check of a reference. *)
Definition existence_check (self : Service) (record_id : Z) : statement :=
  select_by_id (name (table (repository self))) record_id.

(** The form in which a value is kept by its column: a datetime loses its
    timezone, every other value is kept as it is. *)
Definition stored (v : value) : value :=
  match v with
  | VDateTime d => VDateTime (naive d)
  | _ => v
  end.

(** A field and the column it is stored in agree on name, type and
    nullability; the primary key is the optional integer field [id]. *)
Definition compatible (f : FieldInfo) (c : Column) : bool :=
  bool_decide (f_name f = c_name c) &&
  match f_type f, c_type c with
  | TInt, Integer | TStr, Text | TStr, String_ _
  | TDate, Date | TDateTime, DateTime => true
  | _, _ => false
  end &&
  (if primary_key c
   then f_optional f && bool_decide (c_name c = "id") && has_type (f_type f) (VInt 0)
   else Bool.eqb (f_optional f) (nullable c) && bool_decide (c_name c ≠ "id")).

(** The model class of a repository declares the columns of its table. *)
Definition well_mapped (self : Repository) : Prop :=
  Forall2 (λ f c, compatible f c = true)
    (model_fields (model_class self)) (columns (table self)) ∧
  NoDup (c_name <$> columns (table self)) ∧
  "id" ∈ c_name <$> columns (table self).

(** The row that [create] stores for [model] under the rowid [n]. *)
Definition inserted_row (self : Repository) (model : dict) (n : Z) : dict :=
  <["id" := VInt n]>
    ((stored <$> BaseSQLiteRepository._model_to_dict model) ∪
     null_row (columns (table self))).

(** The row that [update] leaves in place of [r]. *)
Definition patched_row (record_id : Z) (model r : dict) : dict :=
  if sql_eq (attr r "id") (VInt record_id)
  then (stored <$> BaseSQLiteRepository._model_to_dict model) ∪ r
  else r.



Definition example_clock : datetime :=
  mk_datetime (mk_date 2025 2 1) 9 0 0 0 None.

Definition empty_world : World :=
  mk_world (mk_database [] [] [] []) [] example_clock.

Definition example_bcba : dict :=
  list_to_map [("id", VNone); ("name", VStr "Dr. A")].

Definition example_patient : dict :=
  list_to_map
    [("id", VNone); ("first_name", VStr "John"); ("last_name", VStr "Doe");
     ("DOB", VDate (mk_date 2015 1 1)); ("ICD", VStr "F84.0"); ("address", VNone)].

Definition example_clinic : dict :=
  list_to_map [("id", VNone); ("name", VStr "Test ABA Clinic"); ("address", VNone)].

(** 2025-02-01 14:30:00+00:00, as in tests/test_session_notes.py. *)
Definition example_apt_date : datetime :=
  mk_datetime (mk_date 2025 2 1) 14 30 0 0 (Some 0).

Definition example_note : dict :=
  new_SessionNote 1 1 None example_apt_date (Some 60) (Some "x").

(** A replacement for that note: a new time and duration, no notes. *)
Definition example_update : dict :=
  new_SessionNote 1 1 None
    (mk_datetime (mk_date 2025 3 15) 14 30 0 0 None) (Some 90) None.

(** One BCBA, one patient, one clinic and one session note without clinic. *)
Definition example_world : World :=
  ((do _ <- BaseSQLiteService.create BcbaService example_bcba;
   do _ <- BaseSQLiteService.create PatientService example_patient;
   do _ <- BaseSQLiteService.create ClinicService example_clinic;
    create_with_validation 1 1 (Some "x") None (Some example_apt_date) (Some 60))
   empty_world).2.


(** ** main.py: PUT /api/session-notes/{note_id} *)

Module main.

Record EditSessionNoteRequest := mk_edit_request {
  bcba : option Z;
  patient_id : option Z;
  clinic_id : option Z;
  apt_date : option datetime;
  duration : option Z;
  notes : option string
}.

(** [raise HTTPException(status_code=..., detail=...)]. *)
Record HTTPException := mk_http_exception {
  http_status_code : Z;
  detail : string
}.

(** [obj.name] on what a Result carries: only a model instance has fields. *)
Definition getattr (obj : object) (name : string) : exn + value :=
  match obj with
  | Model _ fields =>
      match fields !! name with
      | Some v => inr v
      | None => inl ("object has no attribute '" +:+ name +:+ "'")
      end
  | _ => inl ("object has no attribute '" +:+ name +:+ "'")
  end.

(** [request.x if request.x is not None else existing_note.y]. *)
Definition provided_or {A} (f : A → value) (x : option A) (existing_note : object)
    (name : string) : exn + value :=
  match x with
  | Some a => inr (f a)
  | None => getattr existing_note name
  end.

(** [SessionNote(id=note_id, bcba=..., patient=..., clinic=..., apt_date=...,
    duration=..., notes=...)], validated by the constructor; the keyword
    arguments are evaluated from left to right. *)
Definition updated_note (existing_note : object) (note_id : Z)
    (request : EditSessionNoteRequest) : exn + dict :=
  match provided_or VInt (bcba request) existing_note "bcba" with
  | inl e => inl e
  | inr v_bcba =>
  match provided_or VInt (patient_id request) existing_note "patient" with
  | inl e => inl e
  | inr v_patient =>
  match provided_or VInt (clinic_id request) existing_note "clinic" with
  | inl e => inl e
  | inr v_clinic =>
  match provided_or VDateTime (apt_date request) existing_note "apt_date" with
  | inl e => inl e
  | inr v_apt_date =>
  match provided_or VInt (duration request) existing_note "duration" with
  | inl e => inl e
  | inr v_duration =>
  match provided_or VStr (notes request) existing_note "notes" with
  | inl e => inl e
  | inr v_notes =>
      validate_fields (model_fields SessionNote)
        (list_to_map
           [("id", VInt note_id); ("bcba", v_bcba); ("patient", v_patient);
            ("clinic", v_clinic); ("apt_date", v_apt_date);
            ("duration", v_duration); ("notes", v_notes)])
  end end end end end end.

(** [edit_session_note]: every exception of the body becomes
    [HTTPException(status_code=500)]. *)
Definition edit_session_note (note_id : Z) (request : EditSessionNoteRequest)
    : M (HTTPException + gmap string object) :=
  do existing_result <- BaseSQLiteService.get_by_id SessionNoteService note_id;
  if negb (success existing_result)
  then ret (inr (to_response existing_result))
  else
    match updated_note (data existing_result) note_id request with
    | inl e =>
        ret (inl (mk_http_exception 500 ("Failed to edit session note: " +:+ e)))
    | inr updated =>
        do result <- BaseSQLiteService.update SessionNoteService note_id updated;
        ret (inr (to_response result))
    end.

End main.

(** * Specification vocabulary, continued *)

(** What [get_by_id] makes of the first row that the SELECT returns, for
    an id within 64 bits. *)
Definition lookup_result (self : Repository) (record_id : Z) (row : option dict)
    : Result :=
  match row with
  | None => not_found record_id
  | Some r =>
      match model_validate (model_class self) r with
      | inr model => success_result model
      | inl e => error_result ("Error fetching record: " +:+ e) (Some 500)
      end
  end.

(** The rows of the table with the id [record_id], in storage order. *)
Definition rows_with_id (self : Repository) (record_id : Z) (d : Database)
    : list dict :=
  List.filter (λ r, sql_eq (attr r "id") (VInt record_id))
    (rows (name (table self)) d).

(** Every row loads as an instance of the repository's class. *)
Definition loadable (self : Repository) (rs : list dict) : Prop :=
  Forall (λ r, ∃ fields, validate_fields (model_fields (model_class self)) r
                           = inr fields) rs.

(** Every row has an integer id and no two rows share one. *)
Definition keyed (rs : list dict) : Prop :=
  Forall (λ r, ∃ z, r !! "id" = Some (VInt z)) rs ∧ NoDup (rowids rs).

(** A call of one of the three writing operations of a service. *)
Inductive write_call :=
| CallCreate (model : dict)
| CallUpdate (record_id : Z) (model : dict)
| CallDelete (record_id : Z).

Definition call (self : Service) (c : write_call) : M Result :=
  match c with
  | CallCreate model => BaseSQLiteService.create self model
  | CallUpdate record_id model => BaseSQLiteService.update self record_id model
  | CallDelete record_id => BaseSQLiteService.delete self record_id
  end.

(** The world after a sequence of calls. *)
Fixpoint after_calls (self : Service) (cs : list write_call) (w : World) : World :=
  match cs with
  | [] => w
  | c :: cs => after_calls self cs (call self c w).2
  end.

(** The model of a call, if it has one, is an instance of the class. *)
Definition well_typed_call (self : Service) (c : write_call) : Prop :=
  match c with
  | CallCreate model | CallUpdate _ model =>
      instance_of (model_class (repository self)) model
  | CallDelete _ => True
  end.

(** The world after one patient has been created. *)
Definition one_patient_world : World :=
  after_calls PatientService [CallCreate example_patient] empty_world.

(** The world after one session note has been created, unvalidated. *)
Definition one_note_world : World :=
  after_calls SessionNoteService [CallCreate example_note] empty_world.

Definition unnamed_clinic : dict :=
  list_to_map [("id", VNone); ("name", VStr ""); ("address", VNone)].

(** One BCBA, one patient, one clinic whose name is the empty string, and
    one session note held at that clinic. *)
Definition unnamed_clinic_world : World :=
  ((do _ <- BaseSQLiteService.create BcbaService example_bcba;
    do _ <- BaseSQLiteService.create PatientService example_patient;
    do _ <- BaseSQLiteService.create ClinicService unnamed_clinic;
    create_with_validation 1 1 (Some "x") (Some 1) (Some example_apt_date) (Some 60))
   empty_world).2.


(** A request that sets the duration and the notes only. *)
Definition example_edit : main.EditSessionNoteRequest :=
  main.mk_edit_request None None None None (Some 90) (Some "revised").



(** * Properties of the result envelope *)

Section result_envelope.

Lemma error_result_fields e c :
  success (error_result e c) = false ∧
  data (error_result e c) = ONone ∧
  error (error_result e c) = Some e.
Proof. done. Qed.

Lemma error_result_status e (c : Z) :
  c ≠ 0 → status_code (error_result e (Some c)) = c.
Proof.
  intros Hc. unfold error_result, Result_init; simpl.
  by destruct (Z.eqb_spec c 0).
Qed.

Lemma to_dict_lookup_success r :
  to_dict r !! Payload.success = Some (Scalar (VBool (success r))).
Proof. unfold to_dict. by destruct (success r). Qed.

Lemma to_dict_lookup_status_code r :
  to_dict r !! Payload.status_code = Some (Scalar (VInt (status_code r))).
Proof. unfold to_dict. by destruct (success r). Qed.

End result_envelope.

(** C6, as stated, fails: the named failure constructor called without a
    status code yields 400, not 500. *)
Lemma error_result_default_is_not_500 :
  status_code (error_result "boom" None) = 400 ∧
  status_code (error_result "boom" None) ≠ 500.
Proof. split; [reflexivity | discriminate]. Qed.

(** C6 (amended): [error_result] without an explicit status code gives 400;
    a failure built through the constructor itself without a status code
    gives 500; a success without an explicit code gives 200, through the
    named constructor and through the constructor itself. *)
Theorem default_status_codes (e : string) (d : object) (e' : option string) :
  status_code (error_result e None) = 400 ∧
  status_code (Result_init false d e' None) = 500 ∧
  status_code (success_result d) = 200 ∧
  status_code (Result_init true d e' None) = 200.
Proof. done. Qed.

(** C7: [to_dict] always has the keys [success] and [status_code], and
    exactly one of [data] (on success) and [error] (on failure). *)
Theorem to_dict_keys (r : Result) :
  is_Some (to_dict r !! Payload.success) ∧
  is_Some (to_dict r !! Payload.status_code) ∧
  (if success r
   then to_dict r !! Payload.payload = Some (data r) ∧
        to_dict r !! Payload.error = None
   else to_dict r !! Payload.error = Some (error_value (error r)) ∧
        to_dict r !! Payload.payload = None) ∧
  dom (to_dict r) =
    {[ Payload.success; Payload.status_code ]} ∪
    {[ if success r then Payload.payload else Payload.error ]}.
Proof.
  rewrite to_dict_lookup_success, to_dict_lookup_status_code.
  split_and!; [by eexists | by eexists | |];
    unfold to_dict; destruct (success r); try done;
    rewrite !dom_insert_L, dom_empty_L; set_solver.
Qed.

(** C10: the constructor drops the error of a success and the payload of a
    failure, whatever arguments are supplied, so a constructed Result never
    carries both. *)
Theorem Result_init_exclusive (s : bool) (d : object) (e : option string)
    (c : option Z) :
  error (Result_init true d e c) = None ∧
  data (Result_init false d e c) = ONone ∧
  (error (Result_init s d e c) = None ∨ data (Result_init s d e c) = ONone).
Proof. destruct s; unfold Result_init; simpl; auto. Qed.

(** * Properties of the repository and of the session-note service *)


(** Decidable closed goals, by evaluation of their decision procedure. *)
Ltac by_compute := apply (bool_decide_unpack _); vm_compute; exact I.

Section engine.

Lemma sql_eq_VInt v z : sql_eq v (VInt z) = true ↔ v = VInt z.
Proof.
  destruct v; simpl; try (split; [discriminate | discriminate]);
    try (rewrite bool_decide_eq_true; tauto).
Qed.

Lemma filter_id_absent rs z :
  Forall (λ r, attr r "id" ≠ VInt z) rs →
  List.filter (λ r, sql_eq (attr r "id") (VInt z)) rs = [].
Proof.
  induction 1 as [|r rs Hr _ IH]; [done|]. simpl.
  destruct (sql_eq _ _) eqn:E; [|done].
  by apply sql_eq_VInt in E.
Qed.


Lemma executed_logged w ss : executed w (logged w ss) = ss.
Proof. unfold executed, logged; simpl. by rewrite drop_app_length. Qed.

Lemma int64_spec z :
  int64 z = true ↔ -9223372036854775808 ≤ z < 9223372036854775808.
Proof. unfold int64. rewrite andb_true_iff, Z.leb_le, Z.ltb_lt. tauto. Qed.

Lemma execute_select_where_eq t col v w :
  execute_select_where t col v w =
    (if bindable v
     then inr (List.filter (λ r, sql_eq (attr r col) v) (rows (name t) (db w)))
     else inl OverflowError,
     logged w [SelectWhere (name t) col v]).
Proof. unfold execute_select_where, bind, log. simpl. by destruct (bindable v). Qed.

Lemma storable_lookup (r : dict) k v :
  storable r → r !! k = Some v → bindable v = true.
Proof. intros Hr Hk. exact (Hr k v Hk). Qed.

Lemma storable_fmap_stored (m : dict) : storable m → storable (stored <$> m).
Proof.
  intros Hm k v. rewrite lookup_fmap. destruct (m !! k) as [u|] eqn:Hu; [|done].
  intros [= <-]. specialize (Hm k u Hu). by destruct u.
Qed.

Lemma storable_stored_fmap (m : dict) : storable (stored <$> m) → storable m.
Proof.
  intros Hm k v Hv. specialize (Hm k (stored v)).
  rewrite lookup_fmap, Hv in Hm. specialize (Hm eq_refl). by destruct v.
Qed.

End engine.

Section repository.
Import BaseSQLiteRepository.

(** A read leaves the database as it is and adds its SELECT to the journal. *)
Lemma get_by_id_world self record_id w :
  (get_by_id self record_id w).2 =
    logged w [select_by_id (name (table self)) record_id].
Proof.
  unfold get_by_id, bind. rewrite execute_select_where_eq.
  destruct (bindable _); [|done].
  destruct (head _); [|done]. by destruct (_row_to_model _ _).
Qed.

(** The outcome of a read depends on the database only. *)
Lemma get_by_id_result self record_id w1 w2 :
  db w1 = db w2 →
  (get_by_id self record_id w1).1 = (get_by_id self record_id w2).1.
Proof.
  intros Hdb. unfold get_by_id, bind. rewrite !execute_select_where_eq, Hdb.
  destruct (bindable _); [|done].
  destruct (head _); [|done]. by destruct (_row_to_model _ _).
Qed.

Lemma get_by_id_run self record_id w :
  get_by_id self record_id w =
    ((get_by_id self record_id w).1,
     logged w [select_by_id (name (table self)) record_id]).
Proof. rewrite <-get_by_id_world. by destruct (get_by_id self record_id w). Qed.

(** An id that the driver cannot bind. *)
Lemma get_by_id_overflow self record_id w :
  int64 record_id = false →
  get_by_id self record_id w =
    (fetch_overflow, logged w [select_by_id (name (table self)) record_id]).
Proof.
  intros Hz. unfold get_by_id, bind. rewrite execute_select_where_eq.
  cbn [bindable]. by rewrite Hz.
Qed.

Lemma get_by_id_absent self record_id w :
  int64 record_id = true →
  absent (name (table self)) record_id (db w) →
  get_by_id self record_id w =
    (not_found record_id, logged w [select_by_id (name (table self)) record_id]).
Proof.
  intros Hz Habs. unfold get_by_id, bind. rewrite execute_select_where_eq.
  cbn [bindable]. rewrite Hz. by rewrite filter_id_absent.
Qed.

(** The existence check of an absent id fails, whatever the id. *)
Lemma get_by_id_absent_fails self record_id w :
  absent (name (table self)) record_id (db w) →
  success (get_by_id self record_id w).1 = false.
Proof.
  intros Habs. destruct (int64 record_id) eqn:Hz.
  - by rewrite get_by_id_absent.
  - by rewrite get_by_id_overflow.
Qed.

Lemma get_by_id_success_int64 self record_id w :
  success (get_by_id self record_id w).1 = true → int64 record_id = true.
Proof.
  intros Hok. destruct (int64 record_id) eqn:Hz; [done|].
  by rewrite get_by_id_overflow in Hok.
Qed.

Lemma update_not_found self record_id model w :
  success (get_by_id self record_id w).1 = false →
  update self record_id model w = get_by_id self record_id w.
Proof. intros Hok. unfold update, bind. by rewrite get_by_id_run, Hok. Qed.

Lemma delete_not_found self record_id w :
  success (get_by_id self record_id w).1 = false →
  delete self record_id w = get_by_id self record_id w.
Proof.
  intros Hok. unfold delete, bind. rewrite get_by_id_run, Hok. done.
Qed.

Lemma update_absent self record_id model w :
  absent (name (table self)) record_id (db w) →
  update self record_id model w = get_by_id self record_id w.
Proof. intros Habs. by apply update_not_found, get_by_id_absent_fails. Qed.

Lemma delete_absent self record_id w :
  absent (name (table self)) record_id (db w) →
  delete self record_id w = get_by_id self record_id w.
Proof. intros Habs. by apply delete_not_found, get_by_id_absent_fails. Qed.

End repository.


(** C4, as stated, fails: an id outside the signed 64-bit range is absent
    from every table, and [get_by_id], [update] and [delete] answer it with
    a 500 failure, not with the 404. *)
Lemma absent_id_out_of_range :
  absent Bcbas 9223372036854775808 (db example_world) ∧
  status_code
    (BaseSQLiteService.get_by_id BcbaService 9223372036854775808 example_world).1
    = 500 ∧
  status_code
    (BaseSQLiteService.update BcbaService 9223372036854775808 example_bcba
       example_world).1 = 500 ∧
  status_code
    (BaseSQLiteService.delete BcbaService 9223372036854775808 example_world).1
    = 500.
Proof. split_and!; by_compute. Qed.

(** C4 (amended): on an id absent from the table, [update] and [delete]
    return what [get_by_id] returns, a failure, having handed over nothing
    but the SELECT of the existence check, which is no write; the database
    is unchanged, so a repeated [delete] fails in the same way. The failure
    is the 404 for an id within the signed 64-bit range and the 500 of the
    driver's overflow error for an id outside it. *)
Theorem absent_id_update_delete (self : Service) (record_id : Z) (model : dict)
    (w : World) :
  absent (name (table (repository self))) record_id (db w) →
  let found := BaseSQLiteService.get_by_id self record_id w in
  found.1 = (if int64 record_id then not_found record_id else fetch_overflow) ∧
  success found.1 = false ∧
  status_code found.1 = (if int64 record_id then 404 else 500) ∧
  BaseSQLiteService.update self record_id model w = found ∧
  BaseSQLiteService.delete self record_id w = found ∧
  db found.2 = db w ∧
  executed w found.2 = [select_by_id (name (table (repository self))) record_id] ∧
  existsb is_write (executed w found.2) = false ∧
  (BaseSQLiteService.delete self record_id found.2).1 = found.1.
Proof.
  intros Habs. unfold BaseSQLiteService.get_by_id, BaseSQLiteService.update,
    BaseSQLiteService.delete. cbv zeta.
  rewrite update_absent, delete_absent by done.
  rewrite get_by_id_world, executed_logged.
  assert (absent (name (table (repository self))) record_id
            (db (logged w [select_by_id (name (table (repository self)))
                             record_id]))) as Habs' by done.
  rewrite (delete_absent _ _ _ Habs').
  rewrite (get_by_id_result _ _ (logged w _) w) by done.
  destruct (int64 record_id) eqn:Hz.
  - by rewrite get_by_id_absent.
  - by rewrite get_by_id_overflow.
Qed.

Lemma absent_id_update_delete_witness :
  absent Bcbas 99999 (db example_world) ∧
  BaseSQLiteService.delete BcbaService 99999 example_world =
    BaseSQLiteService.get_by_id BcbaService 99999 example_world ∧
  BaseSQLiteService.update BcbaService 99999 example_bcba example_world =
    BaseSQLiteService.get_by_id BcbaService 99999 example_world ∧
  status_code (BaseSQLiteService.get_by_id BcbaService 99999 example_world).1 = 404.
Proof.
  assert (absent Bcbas 99999 (db example_world)) as Habs by by_compute.
  pose proof (absent_id_update_delete BcbaService 99999 example_bcba
                example_world Habs) as H.
  cbv zeta in H. destruct H as (_ & _ & Hs & Hu & Hd & _).
  split_and!; [exact Habs | exact Hd | exact Hu | exact Hs].
Defined.

Section session_notes.
Import BaseSQLiteRepository.


Lemma filter_null_reference rs col :
  List.filter (λ r, sql_eq VNone (attr r col)) rs = [].
Proof. by induction rs. Qed.

Lemma execute_select_details_eq col v w :
  execute_select_details col v w =
    (if bindable v
     then inr (n ← List.filter (λ n, sql_eq (attr n col) v)
                     (session_notes_rows (db w));
               join_details (db w) n)
     else inl OverflowError,
     logged w [SelectDetails col v]).
Proof.
  unfold execute_select_details, bind, log. simpl. by destruct (bindable v).
Qed.

(** In a joined row the clinic name is NULL when the note has no clinic:
    the ON clause of the outer join is never true on a NULL reference. *)
Lemma join_details_no_clinic d n row :
  row ∈ join_details d n →
  attr row "clinic" = VNone →
  attr row "clinic_name" = VNone.
Proof.
  unfold join_details. intros Hrow Hclinic.
  apply list_elem_of_bind in Hrow as (p & Hrow & _).
  apply list_elem_of_bind in Hrow as (c & Hrow & Hc).
  apply list_elem_of_bind in Hrow as (b & Hrow & _).
  apply list_elem_of_singleton in Hrow as ->.
  assert (attr n "clinic" = VNone) as Hn.
  { revert Hclinic. unfold joined_row, attr.
    by rewrite !lookup_insert_ne by done. }
  rewrite Hn, filter_null_reference in Hc.
  apply list_elem_of_singleton in Hc as ->.
  unfold joined_row, attr.
  rewrite lookup_insert_ne, lookup_insert_ne, lookup_insert_eq; done.
Qed.

Lemma select_details_no_clinic col v w results row :
  (execute_select_details col v w).1 = inr results →
  row ∈ results →
  attr row "clinic" = VNone →
  attr row "clinic_name" = VNone.
Proof.
  rewrite execute_select_details_eq. simpl.
  destruct (bindable v); [|done]. intros [= <-] Hrow.
  apply list_elem_of_bind in Hrow as (n & Hrow & _).
  by apply (join_details_no_clinic (db w) n).
Qed.

Lemma note_with_details_clinic row note :
  note_with_details row = inr note →
  note !! "clinic" = Some (attr row "clinic") ∧
  note !! "clinic_name" =
    Some (if truthy (attr row "clinic_name") then attr row "clinic_name"
          else VStr "No Clinic").
Proof.
  unfold note_with_details. destruct (apt_date_isoformat _); [done|].
  intros [= <-]. split; by simplify_map_eq.
Qed.

Lemma note_with_details_id row note :
  note_with_details row = inr note → note !! "id" = Some (attr row "id").
Proof.
  unfold note_with_details. destruct (apt_date_isoformat _); [done|].
  intros [= <-]. by simplify_map_eq.
Qed.

Lemma note_with_details_sentinel row note :
  note_with_details row = inr note →
  attr row "clinic" = VNone → attr row "clinic_name" = VNone →
  note !! "clinic" = Some VNone ∧ note !! "clinic_name" = Some (VStr "No Clinic").
Proof.
  intros [-> ->]%note_with_details_clinic -> ->. done.
Qed.

Lemma notes_with_details_elem results l o :
  notes_with_details results = inr l → o ∈ l →
  ∃ row note, row ∈ results ∧ note_with_details row = inr note ∧ o = Dict note.
Proof.
  revert l. induction results as [|row results IH]; simpl; intros l.
  - intros [= <-] Ho. by apply elem_of_nil in Ho.
  - destruct (note_with_details row) as [|note] eqn:Hrow; [done|].
    destruct (notes_with_details results) as [|l'] eqn:Hl; [done|].
    intros [= <-] [->|Ho]%elem_of_cons.
    + exists row, note. split_and!; [left | done | done].
    + destruct (IH l' eq_refl Ho) as (row' & note' & ? & ? & ?).
      exists row', note'. split_and!; [by right | done | done].
Qed.

Lemma join_details_elem d n row :
  row ∈ join_details d n → ∃ p c b, row = joined_row n p c b.
Proof.
  unfold join_details. intros Hrow.
  apply list_elem_of_bind in Hrow as (p & Hrow & _).
  apply list_elem_of_bind in Hrow as (c & Hrow & _).
  apply list_elem_of_bind in Hrow as (b & Hrow & _).
  apply list_elem_of_singleton in Hrow as ->. by exists p, c, b.
Qed.

Lemma joined_row_apt_date n p c b :
  attr (joined_row n p c b) "apt_date" = attr n "apt_date".
Proof. unfold joined_row, attr. by rewrite !lookup_insert_ne by done. Qed.

Lemma joined_row_clinic n p c b :
  attr (joined_row n p c b) "clinic" = attr n "clinic".
Proof. unfold joined_row, attr. by rewrite !lookup_insert_ne by done. Qed.

Lemma joined_row_id n p c b : attr (joined_row n p c b) "id" = attr n "id".
Proof. unfold joined_row, attr. by rewrite !lookup_insert_ne by done. Qed.

(** The loop over the joined rows succeeds when every row has a datetime as
    appointment time, with one dictionary per row. *)
Lemma notes_with_details_total results :
  Forall (λ row, ∃ d, attr row "apt_date" = VDateTime d) results →
  ∃ l, notes_with_details results = inr l ∧
       ∀ row, row ∈ results →
              ∃ note, note_with_details row = inr note ∧ Dict note ∈ l.
Proof.
  induction 1 as [|row results [d Hd] _ (l & Hl & IH)].
  - exists []. split; [done|]. by intros row ?%elem_of_nil.
  - cbn [notes_with_details].
    destruct (note_with_details row) as [e|note] eqn:Hrow.
    { unfold note_with_details in Hrow. by rewrite Hd in Hrow. }
    rewrite Hl. exists (Dict note :: l). split; [done|].
    intros row' [->|Hin]%elem_of_cons.
    + exists note. split; [done | left].
    + destruct (IH row' Hin) as (note' & ? & ?). exists note'.
      split; [done | by right].
Qed.

Lemma filter_elem {A} (f : A → bool) l x :
  x ∈ l → f x = true → x ∈ List.filter f l.
Proof.
  intros Hx Hf. apply list_elem_of_In, List.filter_In.
  split; [by apply list_elem_of_In | done].
Qed.

(** A note without clinic whose patient and BCBA exist is in the join. *)
Lemma join_details_nonempty d n p b :
  attr n "clinic" = VNone →
  p ∈ patients_rows d → sql_eq (attr n "patient") (attr p "id") = true →
  b ∈ bcbas_rows d → sql_eq (attr n "bcba") (attr b "id") = true →
  joined_row n p None b ∈ join_details d n.
Proof.
  intros Hc Hp Hpid Hb Hbid. unfold join_details.
  apply list_elem_of_bind. exists p. split; [|by apply filter_elem].
  apply list_elem_of_bind. exists None. split.
  - apply list_elem_of_bind. exists b. split; [left | by apply filter_elem].
  - rewrite Hc, filter_null_reference. left.
Qed.

Lemma head_elem {A} (l : list A) x : x ∈ l → ∃ y, head l = Some y ∧ y ∈ l.
Proof.
  destruct l as [|y l]; [by intros ?%elem_of_nil|].
  exists y. split; [done|left].
Qed.

(** The by-id read of a stored note without clinic whose patient and BCBA
    exist succeeds, with the sentinel. *)
Lemma stored_note_details w note_id n p b d :
  int64 note_id = true →
  List.filter (λ n, sql_eq (attr n "id") (VInt note_id))
    (session_notes_rows (db w)) = [n] →
  attr n "clinic" = VNone → attr n "apt_date" = VDateTime d →
  p ∈ patients_rows (db w) → sql_eq (attr n "patient") (attr p "id") = true →
  b ∈ bcbas_rows (db w) → sql_eq (attr n "bcba") (attr b "id") = true →
  ∃ note,
    (get_by_id_with_details note_id w).1 = success_result (Dict note) ∧
    note !! "clinic" = Some VNone ∧
    note !! "clinic_name" = Some (VStr "No Clinic").
Proof.
  intros Hz Hn Hc Hapt Hp Hpid Hb Hbid.
  unfold get_by_id_with_details, bind. rewrite execute_select_details_eq.
  cbn [bindable]. rewrite Hz, Hn, bind_singleton.
  destruct (head_elem _ _ (join_details_nonempty _ _ _ _ Hc Hp Hpid Hb Hbid))
    as (row & -> & Hrow).
  pose proof Hrow as (p' & c' & b' & Heq)%join_details_elem.
  assert (attr row "apt_date" = VDateTime d) as Hrapt
    by (by rewrite Heq, joined_row_apt_date).
  assert (attr row "clinic" = VNone) as Hrc
    by (by rewrite Heq, joined_row_clinic).
  pose proof (join_details_no_clinic _ _ _ Hrow Hrc) as Hname.
  destruct (note_with_details row) as [e|note] eqn:Hnote.
  { unfold note_with_details in Hnote. by rewrite Hrapt in Hnote. }
  exists note. split; [done|]. by apply (note_with_details_sentinel row).
Qed.

(** The by-BCBA read lists a stored note without clinic whose patient and
    BCBA exist, with the sentinel, when the notes of that BCBA have a
    datetime as appointment time. *)
Lemma stored_note_listed w bcba_id n p b :
  int64 bcba_id = true →
  n ∈ session_notes_rows (db w) → attr n "bcba" = VInt bcba_id →
  attr n "clinic" = VNone →
  p ∈ patients_rows (db w) → sql_eq (attr n "patient") (attr p "id") = true →
  b ∈ bcbas_rows (db w) → sql_eq (attr n "bcba") (attr b "id") = true →
  (∀ m, m ∈ session_notes_rows (db w) → attr m "bcba" = VInt bcba_id →
        ∃ d, attr m "apt_date" = VDateTime d) →
  ∃ l note,
    (get_by_bcba_with_details bcba_id w).1 = success_result (List l) ∧
    Dict note ∈ l ∧
    note !! "id" = Some (attr n "id") ∧
    note !! "clinic" = Some VNone ∧
    note !! "clinic_name" = Some (VStr "No Clinic").
Proof.
  intros Hz Hn Hbcba Hc Hp Hpid Hb Hbid Hapt.
  unfold get_by_bcba_with_details, bind. rewrite execute_select_details_eq.
  cbn [bindable]. rewrite Hz.
  set (results := List.filter _ _ ≫= _).
  assert (Forall (λ row, ∃ d, attr row "apt_date" = VDateTime d) results) as Hall.
  { apply Forall_forall. intros row (m & Hrow & Hm)%list_elem_of_bind.
    apply list_elem_of_In, List.filter_In in Hm as [Hm Hmb].
    apply list_elem_of_In in Hm. apply sql_eq_VInt in Hmb.
    destruct (Hapt m Hm Hmb) as [d Hd]. exists d.
    apply join_details_elem in Hrow as (p' & c' & b' & ->).
    by rewrite joined_row_apt_date. }
  destruct (notes_with_details_total _ Hall) as (l & Hl & Hrows).
  rewrite Hl.
  pose proof (join_details_nonempty _ _ _ _ Hc Hp Hpid Hb Hbid) as Hrow.
  assert (joined_row n p None b ∈ results) as Hin.
  { apply list_elem_of_bind. exists n. split; [done|].
    apply filter_elem; [done|]. by apply sql_eq_VInt. }
  destruct (Hrows _ Hin) as (note & Hnote & Hl').
  assert (note !! "clinic" = Some VNone ∧
          note !! "clinic_name" = Some (VStr "No Clinic")) as [Hnc Hname].
  { apply (note_with_details_sentinel _ _ Hnote).
    - by rewrite joined_row_clinic.
    - apply (join_details_no_clinic _ _ _ Hrow). by rewrite joined_row_clinic. }
  exists l, note. split_and!; [done | done | | done | done].
  by rewrite (note_with_details_id _ _ Hnote), joined_row_id.
Qed.

End session_notes.




(** C9: every note returned by a detail-joined read whose clinic reference
    is null has the key [clinic_name], holding the string "No Clinic"; and
    both reads do return a stored note without clinic whose patient and
    BCBA exist: the by-id read answers with it, and the by-BCBA read lists
    it, with that clinic name. *)
Theorem no_clinic_sentinel (w : World) :
  (∀ note_id note,
     data (get_by_id_with_details note_id w).1 = Dict note →
     success (get_by_id_with_details note_id w).1 = true →
     note !! "clinic" = Some VNone →
     note !! "clinic_name" = Some (VStr "No Clinic")) ∧
  (∀ bcba_id l note,
     data (get_by_bcba_with_details bcba_id w).1 = List l →
     Dict note ∈ l →
     note !! "clinic" = Some VNone →
     note !! "clinic_name" = Some (VStr "No Clinic")) ∧
  (∀ note_id n p b d,
     int64 note_id = true →
     List.filter (λ n, sql_eq (attr n "id") (VInt note_id))
       (session_notes_rows (db w)) = [n] →
     attr n "clinic" = VNone → attr n "apt_date" = VDateTime d →
     p ∈ patients_rows (db w) → sql_eq (attr n "patient") (attr p "id") = true →
     b ∈ bcbas_rows (db w) → sql_eq (attr n "bcba") (attr b "id") = true →
     ∃ note,
       (get_by_id_with_details note_id w).1 = success_result (Dict note) ∧
       note !! "clinic_name" = Some (VStr "No Clinic")) ∧
  (∀ bcba_id n p b,
     int64 bcba_id = true →
     n ∈ session_notes_rows (db w) → attr n "bcba" = VInt bcba_id →
     attr n "clinic" = VNone →
     p ∈ patients_rows (db w) → sql_eq (attr n "patient") (attr p "id") = true →
     b ∈ bcbas_rows (db w) → sql_eq (attr n "bcba") (attr b "id") = true →
     (∀ m, m ∈ session_notes_rows (db w) → attr m "bcba" = VInt bcba_id →
           ∃ d, attr m "apt_date" = VDateTime d) →
     ∃ l note,
       (get_by_bcba_with_details bcba_id w).1 = success_result (List l) ∧
       Dict note ∈ l ∧
       note !! "id" = Some (attr n "id") ∧
       note !! "clinic_name" = Some (VStr "No Clinic")).
Proof.
  split_and!.
  - intros note_id note. unfold get_by_id_with_details, bind.
    destruct (execute_select_details _ _ w) as [[e|results] w'] eqn:Hsel; [done|].
    destruct (head results) as [row|] eqn:Hhead; [|done].
    destruct (note_with_details row) as [|note'] eqn:Hrow; [done|].
    simpl. intros [= ->] _ Hclinic.
    pose proof (note_with_details_clinic _ _ Hrow) as [Hc Hn].
    rewrite Hc in Hclinic. injection Hclinic as Hclinic.
    assert (row ∈ results) as Hin.
    { destruct results; [done|]. injection Hhead as ->. left. }
    apply (select_details_no_clinic "id" (VInt note_id) w results) in Hin;
      [|by rewrite Hsel|done].
    by rewrite Hn, Hin.
  - intros bcba_id l note. unfold get_by_bcba_with_details, bind.
    destruct (execute_select_details _ _ w) as [[e|results] w'] eqn:Hsel; [done|].
    destruct (notes_with_details results) as [|l'] eqn:Hl; [done|].
    simpl. intros [= ->] Hin Hclinic.
    destruct (notes_with_details_elem _ _ _ Hl Hin)
      as (row & note' & Hrow & Hnote & Heq).
    injection Heq as <-.
    pose proof (note_with_details_clinic _ _ Hnote) as [Hc Hn].
    rewrite Hc in Hclinic. injection Hclinic as Hclinic.
    apply (select_details_no_clinic "bcba" (VInt bcba_id) w results) in Hrow;
      [|by rewrite Hsel|done].
    by rewrite Hn, Hrow.
  - intros note_id n p b d Hz Hn Hc Hapt Hp Hpid Hb Hbid.
    destruct (stored_note_details w note_id n p b d) as (note & ? & _ & ?);
      try done.
    by exists note.
  - intros bcba_id n p b Hz Hn Hbcba Hc Hp Hpid Hb Hbid Hapt.
    destruct (stored_note_listed w bcba_id n p b) as (l & note & ? & ? & ? & _ & ?);
      try done.
    by exists l, note.
Qed.

Lemma no_clinic_sentinel_witness :
  let n := inserted_row (repository SessionNoteService) example_note 1 in
  let p := inserted_row (repository PatientService) example_patient 1 in
  let b := inserted_row (repository BcbaService) example_bcba 1 in
  (int64 1 = true ∧
   n ∈ session_notes_rows (db example_world) ∧ attr n "bcba" = VInt 1 ∧
   attr n "clinic" = VNone ∧
   p ∈ patients_rows (db example_world) ∧
   sql_eq (attr n "patient") (attr p "id") = true ∧
   b ∈ bcbas_rows (db example_world) ∧
   sql_eq (attr n "bcba") (attr b "id") = true ∧
   (∀ m, m ∈ session_notes_rows (db example_world) → attr m "bcba" = VInt 1 →
         ∃ d, attr m "apt_date" = VDateTime d)) ∧
  ∃ l note,
    (get_by_bcba_with_details 1 example_world).1 = success_result (List l) ∧
    Dict note ∈ l ∧
    note !! "id" = Some (VInt 1) ∧
    note !! "clinic_name" = Some (VStr "No Clinic").
Proof.
  intros n p b.
  assert (session_notes_rows (db example_world) = [n]) as Hrows by by_compute.
  assert (n ∈ session_notes_rows (db example_world)) as Hn
    by (rewrite Hrows; left).
  assert (attr n "bcba" = VInt 1) as Hbcba by by_compute.
  assert (attr n "clinic" = VNone) as Hc by by_compute.
  assert (p ∈ patients_rows (db example_world)) as Hp
    by (replace (patients_rows (db example_world)) with [p] by by_compute; left).
  assert (sql_eq (attr n "patient") (attr p "id") = true) as Hpid
    by (vm_compute; reflexivity).
  assert (b ∈ bcbas_rows (db example_world)) as Hb
    by (replace (bcbas_rows (db example_world)) with [b] by by_compute; left).
  assert (sql_eq (attr n "bcba") (attr b "id") = true) as Hbid
    by (vm_compute; reflexivity).
  assert (∀ m, m ∈ session_notes_rows (db example_world) → attr m "bcba" = VInt 1 →
               ∃ d, attr m "apt_date" = VDateTime d) as Hapt.
  { intros m Hm _. rewrite Hrows in Hm. apply list_elem_of_singleton in Hm as ->.
    exists (naive example_apt_date). by_compute. }
  split; [by split_and!|].
  destruct (proj2 (proj2 (proj2 (no_clinic_sentinel example_world)))
              1 n p b eq_refl Hn Hbcba Hc Hp Hpid Hb Hbid Hapt)
    as (l & note & Hget & Hin & Hid & Hname).
  exists l, note. split_and!; [exact Hget | exact Hin | | exact Hname].
  rewrite Hid. apply (f_equal Some). by_compute.
Defined.

Section validated_creation.
Import BaseSQLiteRepository.



End validated_creation.



Section models.

Lemma all_services_well_mapped (self : Service) : well_mapped (repository self).
Proof.
  destruct self; (split_and!;
    [ repeat constructor
    | apply (bool_decide_unpack _); by vm_compute
    | apply (bool_decide_unpack _); by vm_compute ]).
Qed.

Lemma stored_not_none v : v ≠ VNone → stored v ≠ VNone.
Proof. by destruct v. Qed.

Lemma stored_has_type t v : has_type t v = true → has_type t (stored v) = true.
Proof. by destruct t, v. Qed.

Lemma validate_field_inv data f v :
  validate_field data f = inr v →
  (v = VNone ∧ f_optional f = true ∧
     (data !! f_name f = None ∨ data !! f_name f = Some VNone)) ∨
  (v ≠ VNone ∧ has_type (f_type f) v = true ∧ data !! f_name f = Some v).
Proof.
  unfold validate_field.
  destruct (data !! f_name f) as [x|] eqn:Hx.
  - destruct x;
      [ destruct (f_optional f); [|done]; intros [= <-]; left; auto
      | destruct (has_type (f_type f) _) eqn:Ht; [|done];
        intros [= <-]; right; by split_and! .. ].
  - destruct (f_optional f); [|done]. intros [= <-]. left. auto.
Qed.

Lemma validate_field_some data f v :
  data !! f_name f = Some v → v ≠ VNone → has_type (f_type f) v = true →
  validate_field data f = inr v.
Proof.
  unfold validate_field. intros -> Hne Ht. rewrite Ht. by destruct v.
Qed.

Lemma validate_field_none data f :
  data !! f_name f = Some VNone → f_optional f = true →
  validate_field data f = inr VNone.
Proof. unfold validate_field. by intros -> ->. Qed.

Lemma validate_fields_lookup fs data m :
  NoDup (f_name <$> fs) →
  validate_fields fs data = inr m →
  (∀ f, f ∈ fs → ∃ v, validate_field data f = inr v ∧ m !! f_name f = Some v) ∧
  (∀ k, k ∉ f_name <$> fs → m !! k = None).
Proof.
  revert m. induction fs as [|f fs IH]; simpl; intros m Hnd.
  - intros [= <-]. split; [by intros f []%elem_of_nil | done].
  - apply NoDup_cons in Hnd as [Hf Hnd].
    destruct (validate_field data f) as [|v] eqn:Hv; [done|].
    destruct (validate_fields fs data) as [|m'] eqn:Hm'; [done|].
    intros [= <-]. destruct (IH m' Hnd eq_refl) as [IH1 IH2]. split.
    + intros g [->|Hg]%elem_of_cons.
      * exists v. by rewrite lookup_insert_eq.
      * destruct (IH1 g Hg) as (u & ? & ?). exists u. split; [done|].
        rewrite lookup_insert_ne; [done|].
        intros Heq. apply Hf. rewrite Heq. by apply list_elem_of_fmap_2.
    + intros k [Hk1 Hk2]%not_elem_of_cons.
      rewrite lookup_insert_ne by done. by apply IH2.
Qed.

Lemma validate_fields_total fs data :
  (∀ f, f ∈ fs → ∃ v, validate_field data f = inr v) →
  ∃ m, validate_fields fs data = inr m.
Proof.
  induction fs as [|f fs IH]; simpl; intros Hall; [by eexists|].
  destruct (Hall f) as [v ->]; [left|].
  destruct IH as [m ->]; [|by eexists].
  intros g Hg. apply Hall. by right.
Qed.

(** What being an instance of a class gives on each key. *)
Lemma instance_of_field cls model f :
  NoDup (f_name <$> model_fields cls) →
  instance_of cls model → f ∈ model_fields cls →
  ∃ v, model !! f_name f = Some v ∧
       (v = VNone ∧ f_optional f = true ∨
        v ≠ VNone ∧ has_type (f_type f) v = true).
Proof.
  intros Hnd Hinst Hf.
  destruct (validate_fields_lookup _ _ _ Hnd Hinst) as [H1 _].
  destruct (H1 f Hf) as (v & Hv & Hm). exists v. split; [done|].
  apply validate_field_inv in Hv as [(? & ? & _)|(? & ? & _)]; auto.
Qed.

Lemma instance_of_other cls model k :
  NoDup (f_name <$> model_fields cls) →
  instance_of cls model → k ∉ f_name <$> model_fields cls →
  model !! k = None.
Proof.
  intros Hnd Hinst Hk.
  destruct (validate_fields_lookup _ _ _ Hnd Hinst) as [_ H2]. by apply H2.
Qed.

Lemma model_to_dict_lookup model k :
  BaseSQLiteRepository._model_to_dict model !! k =
    match model !! k with
    | Some v => if decide (k ≠ "id" ∧ v ≠ VNone) then Some v else None
    | None => None
    end.
Proof.
  unfold BaseSQLiteRepository._model_to_dict, model_dump_exclude_id_none.
  destruct (model !! k) as [v|] eqn:Hk.
  - case_decide as H.
    + by apply map_lookup_filter_Some.
    + apply map_lookup_filter_None. right. intros x Hx.
      rewrite Hk in Hx. by injection Hx as <-.
  - apply map_lookup_filter_None. by left.
Qed.

Lemma model_to_dict_id model :
  BaseSQLiteRepository._model_to_dict model !! "id" = None.
Proof.
  rewrite model_to_dict_lookup. destruct (model !! "id"); [|done].
  case_decide as H; [|done]. by destruct H.
Qed.

Lemma model_to_dict_not_none model k :
  BaseSQLiteRepository._model_to_dict model !! k ≠ Some VNone.
Proof.
  rewrite model_to_dict_lookup. destruct (model !! k); [|done].
  case_decide as H; [|done]. intros [= ->]. by destruct H as [_ []].
Qed.

End models.

Section storage.

Lemma attr_VInt r col z : attr r col = VInt z ↔ r !! col = Some (VInt z).
Proof.
  unfold attr. destruct (r !! col); simpl; split; try done; congruence.
Qed.

Lemma rowids_elem rs r z : r ∈ rs → attr r "id" = VInt z → z ∈ rowids rs.
Proof.
  intros Hr Hz%attr_VInt. apply list_elem_of_omap. exists r. by rewrite Hz.
Qed.

Lemma rowids_app rs1 rs2 : rowids (rs1 ++ rs2) = rowids rs1 ++ rowids rs2.
Proof. apply omap_app. Qed.

Lemma foldr_max_bound z zs :
  z ≤ foldr Z.max z zs ∧ Forall (λ y, y ≤ foldr Z.max z zs) zs.
Proof.
  induction zs as [|y zs [IH1 IH2]]; simpl; [split; [lia | constructor]|].
  split; [lia|]. constructor; [lia|].
  eapply Forall_impl; [exact IH2|]. simpl. lia.
Qed.

(** The fresh rowid is above every rowid of the table. *)
Lemma next_rowid_above rs : Forall (λ z, z < next_rowid rs) (rowids rs).
Proof.
  unfold next_rowid. destruct (rowids rs) as [|z zs]; [constructor|].
  destruct (foldr_max_bound z zs) as [H1 H2].
  constructor; [lia|]. eapply Forall_impl; [exact H2|]. simpl. lia.
Qed.


Lemma null_row_lookup cols k :
  null_row cols !! k =
    if decide (k ∈ c_name <$> cols) then Some VNone else None.
Proof.
  unfold null_row. induction cols as [|c cols IH].
  - rewrite fmap_nil, list_to_map_nil, lookup_empty.
    case_decide as H; [by apply elem_of_nil in H | done].
  - rewrite !fmap_cons, list_to_map_cons.
    destruct (decide (c_name c = k)) as [<-|Hne].
    + rewrite lookup_insert_eq. by rewrite decide_True by left.
    + rewrite lookup_insert_ne by done. rewrite IH. clear IH.
      destruct (decide (k ∈ c_name <$> cols)) as [Hk|Hk].
      * by rewrite decide_True by (by right).
      * rewrite decide_False; [done|]. by intros [?|?]%elem_of_cons.
Qed.

Lemma null_violation_none cols r :
  (∀ c, c ∈ cols → nullable c = false → r !! c_name c ≠ Some VNone) →
  null_violation cols r = None.
Proof.
  unfold null_violation. induction cols as [|c cols IH]; simpl; [done|].
  intros Hall. destruct (nullable c) eqn:Hn; simpl.
  - apply IH. intros c' Hc'. apply Hall. by right.
  - rewrite bool_decide_eq_false_2 by (apply Hall; [left | done]).
    apply IH. intros c' Hc'. apply Hall. by right.
Qed.

(** Binding keeps the keys that name a column. *)
Lemma bind_values_lookup cols values :
  (∀ c v, c ∈ cols → values !! c_name c = Some v →
          bind_processor (c_type c) v = inr (stored v)) →
  ∃ bound,
    bind_values cols values = inr bound ∧
    ∀ k, bound !! k =
           if decide (k ∈ c_name <$> cols) then stored <$> values !! k else None.
Proof.
  induction cols as [|c cols IH]; intros Hall.
  - exists ∅. split; [done|]. intros k. rewrite lookup_empty.
    rewrite decide_False; [done|]. by intros ?%elem_of_nil.
  - destruct IH as (m & Hbind & Hm).
    { intros c' v Hc'. apply Hall. by right. }
    cbn [bind_values]. rewrite Hbind, fmap_cons.
    destruct (values !! c_name c) as [v|] eqn:Hv.
    + rewrite (Hall c v) by (done || left). eexists. split; [done|].
      intros k. destruct (decide (c_name c = k)) as [<-|Hne].
      * rewrite lookup_insert_eq, Hv. by rewrite decide_True by left.
      * rewrite lookup_insert_ne by done. rewrite Hm. clear Hm.
        destruct (decide (k ∈ c_name <$> cols)) as [Hk|Hk].
        -- by rewrite decide_True by (by right).
        -- rewrite decide_False; [done|]. by intros [?|?]%elem_of_cons.
    + exists m. split; [done|]. intros k. rewrite Hm. clear Hm.
      destruct (decide (c_name c = k)) as [<-|Hne].
      * rewrite Hv. by destruct (decide _), (decide _).
      * destruct (decide (k ∈ c_name <$> cols)) as [Hk|Hk].
        -- by rewrite decide_True by (by right).
        -- rewrite decide_False; [done|]. by intros [?|?]%elem_of_cons.
Qed.

Lemma bind_values_stored cols values :
  dom values ⊆ list_to_set (c_name <$> cols) →
  (∀ c v, c ∈ cols → values !! c_name c = Some v →
          bind_processor (c_type c) v = inr (stored v)) →
  bind_values cols values = inr (stored <$> values).
Proof.
  intros Hdom Hall. destruct (bind_values_lookup _ _ Hall) as (bound & -> & Hb).
  f_equal. apply map_eq. intros k. rewrite Hb, lookup_fmap.
  case_decide as Hk; [done|].
  destruct (values !! k) eqn:Hv; [|done].
  exfalso. apply Hk. apply (elem_of_list_to_set (C:=gset string)), Hdom.
  apply elem_of_dom. by eexists.
Qed.

(** Binding never invents a key. *)
Lemma bind_values_None cols values bound k :
  bind_values cols values = inr bound → values !! k = None → bound !! k = None.
Proof.
  revert bound. induction cols as [|c cols IH]; simpl; intros bound.
  - by intros [= <-].
  - destruct (bind_values cols values) as [|m]; [done|].
    destruct (values !! c_name c) as [v|] eqn:Hv.
    + destruct (bind_processor _ _); [done|]. intros [= <-] Hk.
      rewrite lookup_insert_ne by congruence. by apply IH.
    + intros [= <-]. by apply IH.
Qed.

Lemma compatible_bind f c v :
  compatible f c = true → has_type (f_type f) v = true →
  bind_processor (c_type c) v = inr (stored v).
Proof.
  unfold compatible. intros H Ht.
  apply andb_prop in H as [H _]. apply andb_prop in H as [_ H].
  by destruct (f_type f), (c_type c), v.
Qed.

Lemma compatible_names fs cols :
  Forall2 (λ f c, compatible f c = true) fs cols →
  f_name <$> fs = c_name <$> cols.
Proof.
  induction 1 as [|f c fs cols H _ IH]; [done|]. simpl. f_equal; [|done].
  unfold compatible in H. apply andb_prop in H as [H _].
  apply andb_prop in H as [H _]. by apply bool_decide_eq_true in H.
Qed.

Lemma compatible_column fs cols c :
  Forall2 (λ f c, compatible f c = true) fs cols → c ∈ cols →
  ∃ f, f ∈ fs ∧ compatible f c = true.
Proof.
  intros HF [i Hi]%list_elem_of_lookup_1.
  destruct (Forall2_lookup_r _ _ _ _ _ HF Hi) as (f & Hf & Hfc).
  exists f. split; [by eapply list_elem_of_lookup_2 | done].
Qed.

Lemma compatible_field fs cols f :
  Forall2 (λ f c, compatible f c = true) fs cols → f ∈ fs →
  ∃ c, c ∈ cols ∧ compatible f c = true.
Proof.
  intros HF [i Hi]%list_elem_of_lookup_1.
  destruct (Forall2_lookup_l _ _ _ _ _ HF Hi) as (c & Hc & Hfc).
  exists c. split; [by eapply list_elem_of_lookup_2 | done].
Qed.

Lemma compatible_name f c : compatible f c = true → f_name f = c_name c.
Proof.
  unfold compatible. intros H. apply andb_prop in H as [H _].
  apply andb_prop in H as [H _]. by apply bool_decide_eq_true in H.
Qed.

Lemma compatible_required f c :
  compatible f c = true → c_name c ≠ "id" → f_optional f = nullable c.
Proof.
  unfold compatible. intros H Hne. apply andb_prop in H as [_ H].
  destruct (primary_key c).
  - apply andb_prop in H as [H _]. apply andb_prop in H as [_ H].
    by apply bool_decide_eq_true in H.
  - apply andb_prop in H as [H _]. by apply Bool.eqb_prop.
Qed.

Lemma compatible_id f c :
  compatible f c = true → c_name c = "id" →
  f_optional f = true ∧ f_type f = TInt.
Proof.
  unfold compatible. intros H Hid. apply andb_prop in H as [_ H].
  destruct (primary_key c).
  - apply andb_prop in H as [H Ht]. apply andb_prop in H as [H _].
    split; [done|]. by destruct (f_type f).
  - apply andb_prop in H as [_ H]. by apply bool_decide_eq_true in H.
Qed.

End storage.

Section crud.
Import BaseSQLiteRepository.

Context (self : Repository) (Hwm : well_mapped self).

Lemma rows_set_rows t rs d : rows t (set_rows t rs d) = rs.
Proof. by destruct t. Qed.

Lemma rows_set_rows_ne t t' rs d : t' ≠ t → rows t' (set_rows t rs d) = rows t' d.
Proof. by destruct t, t'. Qed.

Lemma field_names : f_name <$> model_fields (model_class self) = c_name <$> columns (table self).
Proof. destruct Hwm as (HF & _). by apply compatible_names. Qed.

Lemma fields_NoDup : NoDup (f_name <$> model_fields (model_class self)).
Proof. rewrite field_names. by destruct Hwm as (_ & ? & _). Qed.

Lemma instance_of_column model c :
  instance_of (model_class self) model → c ∈ columns (table self) →
  ∃ f v, compatible f c = true ∧ model !! c_name c = Some v ∧
         (v = VNone ∧ f_optional f = true ∨
          v ≠ VNone ∧ has_type (f_type f) v = true).
Proof.
  intros Hinst Hc. destruct Hwm as (HF & _).
  destruct (compatible_column _ _ _ HF Hc) as (f & Hf & Hfc).
  destruct (instance_of_field _ _ _ fields_NoDup Hinst Hf) as (v & Hv & Ht).
  exists f, v. by rewrite <-(compatible_name f c).
Qed.

Lemma instance_of_no_column model k :
  instance_of (model_class self) model → k ∉ c_name <$> columns (table self) →
  model !! k = None.
Proof.
  intros Hinst Hk. apply (instance_of_other (model_class self)); [apply fields_NoDup|done|].
  by rewrite field_names.
Qed.

Lemma model_to_dict_dom model :
  instance_of (model_class self) model →
  dom (_model_to_dict model) ⊆ column_names (table self).
Proof.
  intros Hinst k [v Hk]%elem_of_dom. apply elem_of_list_to_set.
  destruct (decide (k ∈ c_name <$> columns (table self))) as [|Hn]; [done|].
  rewrite model_to_dict_lookup, (instance_of_no_column _ _ Hinst Hn) in Hk. done.
Qed.

Lemma model_to_dict_bind model :
  instance_of (model_class self) model →
  bind_values (columns (table self)) (_model_to_dict model) =
    inr (stored <$> _model_to_dict model).
Proof.
  intros Hinst. apply bind_values_stored; [by apply model_to_dict_dom|].
  intros c v Hc. rewrite model_to_dict_lookup.
  destruct (instance_of_column _ _ Hinst Hc) as (f & u & Hfc & -> & Hu).
  case_decide as Hd; [|done]. intros [= <-].
  destruct Hu as [[-> _]|[_ Ht]]; [by destruct Hd as [_ []]|].
  by apply (compatible_bind f).
Qed.

Lemma stored_dict_not_none model k :
  (stored <$> _model_to_dict model) !! k ≠ Some VNone.
Proof.
  rewrite lookup_fmap.
  destruct (_model_to_dict model !! k) as [v|] eqn:Hv; [|done]. simpl.
  intros [= Hs]. revert Hs. apply stored_not_none.
  intros ->. by apply model_to_dict_not_none in Hv.
Qed.

Lemma unsaved_row_lookup model k :
  instance_of (model_class self) model → k ≠ "id" →
  ((stored <$> _model_to_dict model) ∪ null_row (columns (table self))) !! k =
    stored <$> model !! k.
Proof.
  intros Hinst Hk.
  destruct (decide (k ∈ c_name <$> columns (table self))) as [Hin|Hn].
  - apply list_elem_of_fmap in Hin as (c & -> & Hc).
    destruct (instance_of_column _ _ Hinst Hc) as (f & v & _ & Hv & Ht).
    rewrite Hv. simpl. destruct (decide (v = VNone)) as [->|Hne].
    + rewrite lookup_union_r.
      * rewrite null_row_lookup, decide_True; [done|].
        by apply list_elem_of_fmap_2.
      * rewrite lookup_fmap, model_to_dict_lookup, Hv.
        rewrite decide_False; [done|]. by intros [_ []].
    + rewrite lookup_union_l'; rewrite lookup_fmap, model_to_dict_lookup, Hv;
        rewrite decide_True by done; done.
  - rewrite (instance_of_no_column _ _ Hinst Hn). simpl.
    apply lookup_union_None. split.
    + by rewrite lookup_fmap, model_to_dict_lookup, (instance_of_no_column _ _ Hinst Hn).
    + by rewrite null_row_lookup, decide_False.
Qed.

Lemma unsaved_row_id model :
  attr ((stored <$> _model_to_dict model) ∪ null_row (columns (table self))) "id" = VNone.
Proof.
  unfold attr. rewrite lookup_union_r.
  - rewrite null_row_lookup, decide_True; [done|]. by destruct Hwm as (_ & _ & ?).
  - by rewrite lookup_fmap, model_to_dict_id.
Qed.

Lemma inserted_row_valid model n :
  instance_of (model_class self) model →
  null_violation (columns (table self)) (inserted_row self model n) = None.
Proof.
  intros Hinst. apply null_violation_none. intros c Hc Hnull.
  unfold inserted_row. destruct (decide (c_name c = "id")) as [->|Hne].
  - by rewrite lookup_insert_eq.
  - rewrite lookup_insert_ne by done.
    rewrite unsaved_row_lookup by done.
    destruct (instance_of_column _ _ Hinst Hc) as (f & v & Hfc & -> & Hv).
    simpl. intros [= Hs]. revert Hs. apply stored_not_none.
    destruct Hv as [[_ Hopt]|[? _]]; [|done].
    rewrite (compatible_required f c) in Hopt by done. congruence.
Qed.

Lemma fits_bound model :
  fits model ↔ storable (stored <$> _model_to_dict model).
Proof. split; [apply storable_fmap_stored | apply storable_stored_fmap]. Qed.

(** What [create] does with an instance of the repository's class: the row
    is appended under the next rowid when the values fit 64 bits and the
    table is not full, and nothing is written otherwise. *)
Lemma create_instance_run model w :
  instance_of (model_class self) model →
  let t := name (table self) in
  let n := next_rowid (rows t (db w)) in
  let journal' := journal w ++ [InsertValues t (_model_to_dict model)] in
  create self model w =
    if bool_decide (fits model) then
      if int64 n then
        (success_result (Scalar (VInt n)),
         mk_world (set_rows t (rows t (db w) ++ [inserted_row self model n]) (db w))
                  journal' (clock w))
      else
        (error_result ("Error creating record: " +:+ "database or disk is full")
           (Some 500),
         mk_world (db w) journal' (clock w))
    else
      (error_result ("Error creating record: " +:+ OverflowError) (Some 500),
       mk_world (db w) journal' (clock w)).
Proof.
  intros Hinst t n journal'. subst t n journal'.
  unfold create, execute_insert, bind, log, table_rows, ret, commit.
  cbv beta iota zeta. cbn [db journal clock].
  rewrite bool_decide_eq_true_2 by (by apply model_to_dict_dom). cbn [negb].
  rewrite model_to_dict_bind by done.
  rewrite <-(bool_decide_ext _ _ (fits_bound model)).
  destruct (bool_decide (fits model)); [|done]. cbn [negb].
  rewrite unsaved_row_id.
  destruct (int64 _); [|done].
  fold (inserted_row self model (next_rowid (rows (name (table self)) (db w)))).
  by rewrite inserted_row_valid.
Qed.



Lemma inserted_row_validate model n :
  instance_of (model_class self) model →
  ∃ fields,
    validate_fields (model_fields (model_class self)) (inserted_row self model n)
      = inr fields ∧
    fields !! "id" = Some (VInt n) ∧
    ∀ k, k ≠ "id" → fields !! k = stored <$> model !! k.
Proof.
  intros Hinst. destruct Hwm as (HF & Hnd & Hid).
  set (row := inserted_row self model n).
  set (expect := λ k, if decide (k = "id") then VInt n
                      else stored (default VNone (model !! k))).
  assert (∀ f, f ∈ model_fields (model_class self) →
               validate_field row (f) = inr (expect (f_name f))) as Hval.
  { intros f Hf. destruct (compatible_field _ _ _ HF Hf) as (c & Hc & Hfc).
    pose proof (compatible_name _ _ Hfc) as Hname.
    unfold expect, row, inserted_row.
    destruct (decide (f_name f = "id")) as [Hfid|Hne].
    - rewrite Hname in Hfid. destruct (compatible_id _ _ Hfc Hfid) as [_ Hty].
      apply validate_field_some; [|done|by rewrite Hty].
      by rewrite Hname, Hfid, lookup_insert_eq.
    - destruct (instance_of_field _ _ _ fields_NoDup Hinst Hf) as (v & Hv & Ht).
      rewrite Hv. simpl.
      assert (inserted_row self model n !! f_name f = Some (stored v)) as Hrow.
      { unfold inserted_row. rewrite lookup_insert_ne by done.
        by rewrite unsaved_row_lookup, Hv by done. }
      destruct Ht as [[-> Hopt]|[Hnn Hty]].
      + by apply validate_field_none.
      + apply validate_field_some;
          [done | by apply stored_not_none | by apply stored_has_type]. }
  destruct (validate_fields_total (model_fields (model_class self)) row)
    as [fields Hfields].
  { intros f Hf. eexists. by apply Hval. }
  exists fields. split; [done|].
  destruct (validate_fields_lookup _ _ _ fields_NoDup Hfields) as [H1 H2].
  assert (∀ k, k ∈ f_name <$> model_fields (model_class self) →
               fields !! k = Some (expect k)) as Hfield.
  { intros k (f & -> & Hf)%list_elem_of_fmap.
    destruct (H1 f Hf) as (v & Hv & ->). rewrite Hval in Hv by done.
    by injection Hv as <-. }
  split.
  - rewrite Hfield by (by rewrite field_names).
    unfold expect. by rewrite decide_True.
  - intros k Hk.
    destruct (decide (k ∈ f_name <$> model_fields (model_class self))) as [Hin|Hn].
    + rewrite Hfield by done. unfold expect. rewrite decide_False by done.
      apply list_elem_of_fmap in Hin as (f & -> & Hf).
      destruct (instance_of_field _ _ _ fields_NoDup Hinst Hf) as (v & -> & _).
      done.
    + rewrite H2 by done.
      by rewrite (instance_of_other _ _ _ fields_NoDup Hinst Hn).
Qed.


(** What [update] does with an existing record and an instance of the
    class: the rows are patched when the values fit 64 bits, and nothing is
    written otherwise. *)
Lemma update_instance_run record_id model w :
  success (get_by_id self record_id w).1 = true →
  instance_of (model_class self) model →
  let t := name (table self) in
  let journal' :=
    journal w ++ [select_by_id t record_id;
                  UpdateValues t record_id (_model_to_dict model)] in
  update self record_id model w =
    if bool_decide (fits model) then
      (success_result ONone,
       mk_world (set_rows t (patched_row record_id model <$> rows t (db w)) (db w))
                journal' (clock w))
    else
      (error_result ("Error updating record: " +:+ OverflowError) (Some 500),
       mk_world (db w) journal' (clock w)).
Proof.
  intros Hok Hinst t journal'. subst t journal'.
  pose proof (get_by_id_success_int64 _ _ _ Hok) as Hz.
  unfold update, bind. rewrite get_by_id_run, Hok. cbn [negb].
  unfold execute_update, bind, log, table_rows, ret, commit.
  cbv beta iota zeta. cbn [db journal clock logged].
  rewrite bool_decide_eq_true_2 by (by apply model_to_dict_dom). cbn [negb].
  rewrite model_to_dict_bind by done.
  rewrite <-(bool_decide_ext _ _ (fits_bound model)), Hz, andb_true_r.
  destruct (bool_decide (fits model)); cbn [negb];
    [|by rewrite <-(assoc_L (++))].
  rewrite null_violation_none
    by (intros c _ _; apply stored_dict_not_none).
  by rewrite <-(assoc_L (++)).
Qed.


Lemma patched_row_lookup record_id model r k :
  attr r "id" = VInt record_id →
  patched_row record_id model r !! k =
    match model !! k with
    | Some v => if decide (k ≠ "id" ∧ v ≠ VNone) then Some (stored v) else r !! k
    | None => r !! k
    end.
Proof.
  intros Hid%sql_eq_VInt. unfold patched_row. rewrite Hid.
  destruct (model !! k) as [v|] eqn:Hv.
  - case_decide.
    + rewrite lookup_union_l'; rewrite lookup_fmap, model_to_dict_lookup, Hv;
        rewrite decide_True by done; done.
    + rewrite lookup_union_r; [done|].
      rewrite lookup_fmap, model_to_dict_lookup, Hv. by rewrite decide_False.
  - rewrite lookup_union_r; [done|].
    by rewrite lookup_fmap, model_to_dict_lookup, Hv.
Qed.

Lemma patched_row_other record_id model r :
  attr r "id" ≠ VInt record_id → patched_row record_id model r = r.
Proof.
  intros Hid. unfold patched_row.
  destruct (sql_eq _ _) eqn:E; [|done]. by apply sql_eq_VInt in E.
Qed.

End crud.

Section claims_support.
Import BaseSQLiteRepository.


(** Whatever the model, [create] either appends one row under the next
    rowid or fails and leaves the database as it was. *)
Lemma create_cases self model w :
  let t := name (table self) in
  let rs := rows t (db w) in
  (∃ row,
     (create self model w).1 = success_result (Scalar (VInt (next_rowid rs))) ∧
     db (create self model w).2 = set_rows t (rs ++ [row]) (db w) ∧
     row !! "id" = Some (VInt (next_rowid rs))) ∨
  (success (create self model w).1 = false ∧ db (create self model w).2 = db w).
Proof.
  intros t rs. subst t rs.
  unfold create, execute_insert, bind, log, table_rows, ret, commit.
  cbv beta iota zeta. cbn [db journal clock].
  destruct (negb _); [by right|].
  destruct (bind_values _ _) as [|bound] eqn:Hb; [by right|].
  destruct (negb _); [by right|].
  assert (attr (bound ∪ null_row (columns (table self))) "id" = VNone) as ->.
  { unfold attr. rewrite lookup_union_r
      by (apply (bind_values_None _ _ _ _ Hb), model_to_dict_id).
    rewrite null_row_lookup. by case_decide. }
  destruct (int64 _); [|by right].
  destruct (null_violation _ _); [by right|].
  left. eexists. split_and!; [done..|]. by rewrite lookup_insert_eq.
Qed.

Lemma rowids_snoc rs row n :
  row !! "id" = Some (VInt n) → rowids (rs ++ [row]) = rowids rs ++ [n].
Proof. intros H. rewrite rowids_app. unfold rowids at 2. simpl. by rewrite H. Qed.



End claims_support.




(** The stored note had notes "x" and 60 minutes; the replacement has no
    notes and 90 minutes: the notes are kept and the duration is written. *)
Example update_keeps_unset_fields :
  ∃ fields,
    (BaseSQLiteService.get_by_id SessionNoteService 1
       (BaseSQLiteService.update SessionNoteService 1 example_update
          example_world).2).1 =
      success_result (Model "SessionNote" fields) ∧
    fields !! "notes" = Some (VStr "x") ∧
    fields !! "duration" = Some (VInt 90).
Proof.
  eexists. split_and!; vm_compute; reflexivity.
Qed.







(** * Further properties of the repository, the services and the handler *)

(** * Further properties of the repository *)

Section lookups.
Import BaseSQLiteRepository.

Lemma get_by_id_lookup self record_id w :
  (get_by_id self record_id w).1 =
    if int64 record_id
    then lookup_result self record_id (head (rows_with_id self record_id (db w)))
    else fetch_overflow.
Proof.
  unfold get_by_id, bind, rows_with_id. rewrite execute_select_where_eq.
  cbn [bindable]. destruct (int64 record_id); [|done].
  destruct (head _) as [r|]; [|done].
  unfold lookup_result, _row_to_model. by destruct (model_validate _ r).
Qed.

Lemma sql_eq_id_false r z : sql_eq (attr r "id") (VInt z) = false ↔ attr r "id" ≠ VInt z.
Proof.
  rewrite <-sql_eq_VInt. by destruct (sql_eq _ _).
Qed.

Lemma rowids_cons r rs :
  rowids (r :: rs) =
    match r !! "id" with
    | Some (VInt z) => z :: rowids rs
    | _ => rowids rs
    end.
Proof. unfold rowids. simpl. by destruct (r !! "id") as [[]|]. Qed.

Lemma rowids_filter_elem (f : dict → bool) rs z :
  z ∈ rowids (List.filter f rs) → z ∈ rowids rs.
Proof.
  intros (r & Hr & Hz)%list_elem_of_omap. apply list_elem_of_omap.
  exists r. split; [|done].
  apply list_elem_of_In. apply list_elem_of_In, List.filter_In in Hr. tauto.
Qed.

Lemma rowids_filter_NoDup (f : dict → bool) rs :
  NoDup (rowids rs) → NoDup (rowids (List.filter f rs)).
Proof.
  induction rs as [|r rs IH]; [done|]. rewrite rowids_cons. simpl.
  destruct (f r).
  - rewrite rowids_cons. destruct (r !! "id") as [[| |z| | |]|]; try done.
    intros [Hz Hnd]%NoDup_cons. apply NoDup_cons. split; [|by apply IH].
    intros Hin. by apply Hz, (rowids_filter_elem f).
  - destruct (r !! "id") as [[| |z| | |]|]; try done.
    intros [_ Hnd]%NoDup_cons. by apply IH.
Qed.

(** The rows with another id are not touched by a filter on this id. *)
Lemma filter_other_id rs i j :
  j ≠ i →
  List.filter (λ r, sql_eq (attr r "id") (VInt j))
    (List.filter (λ r, negb (sql_eq (attr r "id") (VInt i))) rs) =
  List.filter (λ r, sql_eq (attr r "id") (VInt j)) rs.
Proof.
  intros Hne. induction rs as [|r rs IH]; [done|]. simpl.
  destruct (sql_eq (attr r "id") (VInt i)) eqn:Hi; simpl.
  - destruct (sql_eq (attr r "id") (VInt j)) eqn:Hj; [|done].
    apply sql_eq_VInt in Hi, Hj. congruence.
  - by rewrite IH.
Qed.

Lemma filter_patched rs i j (bound : dict) :
  bound !! "id" = None → j ≠ i →
  List.filter (λ r, sql_eq (attr r "id") (VInt j))
    ((λ r, if sql_eq (attr r "id") (VInt i) then bound ∪ r else r) <$> rs) =
  List.filter (λ r, sql_eq (attr r "id") (VInt j)) rs.
Proof.
  intros Hb Hne. induction rs as [|r rs IH]; [done|].
  rewrite fmap_cons. simpl. rewrite IH.
  destruct (sql_eq (attr r "id") (VInt i)) eqn:Hi; [|done].
  assert (attr (bound ∪ r) "id" = attr r "id") as ->
    by (unfold attr; by rewrite lookup_union_r).
  destruct (sql_eq (attr r "id") (VInt j)) eqn:Hj; [|done].
  apply sql_eq_VInt in Hi, Hj. congruence.
Qed.

Lemma rowids_patched rs i (bound : dict) :
  bound !! "id" = None →
  rowids ((λ r, if sql_eq (attr r "id") (VInt i) then bound ∪ r else r) <$> rs) =
  rowids rs.
Proof.
  intros Hb. induction rs as [|r rs IH]; [done|].
  rewrite fmap_cons, !rowids_cons, IH.
  destruct (sql_eq _ _); [|done]. by rewrite lookup_union_r.
Qed.

Lemma delete_found self record_id w :
  success (get_by_id self record_id w).1 = true →
  delete self record_id w =
    (success_result ONone,
     mk_world
       (set_rows (name (table self))
          (List.filter (λ r, negb (sql_eq (attr r "id") (VInt record_id)))
             (rows (name (table self)) (db w))) (db w))
       (journal w ++ [select_by_id (name (table self)) record_id;
                      DeleteWhere (name (table self)) record_id])
       (clock w)).
Proof.
  intros Hok. pose proof (get_by_id_success_int64 _ _ _ Hok) as Hz.
  unfold delete, bind. rewrite get_by_id_run, Hok. cbn [negb].
  unfold execute_delete, bind, log, table_rows, ret, commit.
  cbv beta iota zeta. cbn [db journal clock logged]. rewrite Hz. cbn [negb].
  by rewrite <-(assoc_L (++)).
Qed.

(** Whatever the model, [update] keeps the id of every row, rewrites only
    rows with the given id, or leaves the database as it was. *)
Lemma update_cases self record_id model w :
  db (update self record_id model w).2 = db w ∨
  ∃ bound : dict,
    bound !! "id" = None ∧
    db (update self record_id model w).2 =
      set_rows (name (table self))
        ((λ r, if sql_eq (attr r "id") (VInt record_id) then bound ∪ r else r)
           <$> rows (name (table self)) (db w)) (db w).
Proof.
  unfold update, bind. rewrite get_by_id_run.
  destruct (negb _); [by left|].
  unfold execute_update, bind, log, table_rows, ret, commit.
  cbv beta iota zeta. cbn [db journal clock logged].
  destruct (negb _); [by left|].
  destruct (bind_values _ _) as [|bound] eqn:Hb; [by left|].
  destruct (negb _); [by left|].
  destruct (null_violation _ _); [destruct (existsb _ _); by left|].
  right. exists bound. split; [|done].
  apply (bind_values_None _ _ _ _ Hb), model_to_dict_id.
Qed.

End lookups.

Section frames.
Import BaseSQLiteRepository.

Lemma get_by_id_same_rows self j w w' :
  rows_with_id self j (db w') = rows_with_id self j (db w) →
  (get_by_id self j w').1 = (get_by_id self j w).1.
Proof. intros H. by rewrite !get_by_id_lookup, H. Qed.

Lemma db_set_rows_other t t' rs d : t' ≠ t → rows t' (set_rows t rs d) = rows t' d.
Proof. apply rows_set_rows_ne. Qed.

Lemma keyed_app rs r z :
  keyed rs → r !! "id" = Some (VInt z) → Forall (λ y, y < z) (rowids rs) →
  keyed (rs ++ [r]).
Proof.
  intros [Hint Hnd] Hr Hlt. split.
  - apply Forall_app. split; [done|]. constructor; [by exists z | constructor].
  - rewrite (rowids_snoc _ _ _ Hr). apply NoDup_app. split_and!; [done| |].
    + intros y Hy [->|[]%elem_of_nil]%elem_of_cons.
      rewrite Forall_forall in Hlt. specialize (Hlt _ Hy). lia.
    + apply NoDup_singleton.
Qed.

Lemma keyed_filter (f : dict → bool) rs : keyed rs → keyed (List.filter f rs).
Proof.
  intros [Hint Hnd]. split; [|by apply rowids_filter_NoDup].
  apply Forall_forall. intros r Hr. rewrite Forall_forall in Hint. apply Hint.
  apply list_elem_of_In. apply list_elem_of_In, List.filter_In in Hr. tauto.
Qed.

Lemma keyed_patched rs i (bound : dict) :
  bound !! "id" = None → keyed rs →
  keyed ((λ r, if sql_eq (attr r "id") (VInt i) then bound ∪ r else r) <$> rs).
Proof.
  intros Hb [Hint Hnd]. split; [|by rewrite rowids_patched].
  apply Forall_fmap. eapply Forall_impl; [exact Hint|]. simpl.
  intros r [z Hz]. exists z. destruct (sql_eq _ _); [|done].
  by rewrite lookup_union_r.
Qed.

(** With unique integer ids at most one row has a given id. *)
Lemma keyed_rows_with_id rs j :
  keyed rs →
  (length (List.filter (λ r, sql_eq (attr r "id") (VInt j)) rs) ≤ 1)%nat.
Proof.
  intros [Hint Hnd]. induction rs as [|r rs IH]; [simpl; lia|].
  apply Forall_cons in Hint as [[z Hz] Hint].
  rewrite rowids_cons, Hz in Hnd. apply NoDup_cons in Hnd as [Hnin Hnd].
  simpl. destruct (sql_eq (attr r "id") (VInt j)) eqn:Hj; [|by apply IH].
  apply sql_eq_VInt, attr_VInt in Hj. rewrite Hz in Hj. injection Hj as ->.
  rewrite filter_id_absent; [simpl; lia|].
  apply Forall_forall. intros r' Hr' Hid. apply Hnin.
  by apply (rowids_elem rs r').
Qed.

Lemma call_keyed self c w :
  keyed (rows (name (table (repository self))) (db w)) →
  keyed (rows (name (table (repository self))) (db (call self c w).2)).
Proof.
  intros Hk. destruct c as [model|record_id model|record_id]; simpl.
  - unfold BaseSQLiteService.create.
    destruct (create_cases (repository self) model w)
      as [(row & _ & -> & Hid)|[_ ->]]; [|done].
    rewrite rows_set_rows. eapply keyed_app; [done..|]. apply next_rowid_above.
  - unfold BaseSQLiteService.update.
    destruct (update_cases (repository self) record_id model w)
      as [->|(bound & Hb & ->)]; [done|].
    rewrite rows_set_rows. by apply keyed_patched.
  - unfold BaseSQLiteService.delete.
    destruct (success (get_by_id (repository self) record_id w).1) eqn:Hok.
    + rewrite delete_found by done. cbn [snd db]. rewrite rows_set_rows.
      by apply keyed_filter.
    + rewrite delete_not_found, get_by_id_world by done. done.
Qed.

End frames.

(** X1: after a successful [delete] the id is absent: [get_by_id] and a
    second [delete] both answer with the 404 failure. *)
Theorem delete_then_not_found (self : Service) (record_id : Z) (w : World) :
  success (BaseSQLiteService.delete self record_id w).1 = true →
  let w' := (BaseSQLiteService.delete self record_id w).2 in
  absent (name (table (repository self))) record_id (db w') ∧
  (BaseSQLiteService.get_by_id self record_id w').1 = not_found record_id ∧
  (BaseSQLiteService.delete self record_id w').1 = not_found record_id ∧
  executed w w' =
    [select_by_id (name (table (repository self))) record_id;
     DeleteWhere (name (table (repository self))) record_id].
Proof.
  intros Hdel w'. subst w'.
  unfold BaseSQLiteService.delete, BaseSQLiteService.get_by_id in *.
  destruct (success (BaseSQLiteRepository.get_by_id (repository self) record_id w).1)
    eqn:Hok; [|by rewrite delete_not_found, Hok in Hdel].
  rewrite delete_found by done. cbn [snd].
  match goal with |- absent ?t ?i ?d ∧ _ => assert (absent t i d) as Habs end.
  { unfold absent. cbn [db]. rewrite rows_set_rows. apply Forall_forall.
    intros r Hr. apply list_elem_of_In, List.filter_In in Hr as [_ Hr].
    apply sql_eq_id_false. by destruct (sql_eq _ _). }
  pose proof (get_by_id_success_int64 _ _ _ Hok) as Hz.
  split_and!; [done | | |].
  - by rewrite get_by_id_absent.
  - by rewrite delete_absent, get_by_id_absent.
  - unfold executed. cbn [journal]. by rewrite drop_app_length.
Qed.

Lemma delete_then_not_found_witness :
  success (BaseSQLiteService.delete SessionNoteService 1 example_world).1 = true ∧
  (BaseSQLiteService.get_by_id SessionNoteService 1
     (BaseSQLiteService.delete SessionNoteService 1 example_world).2).1 =
    not_found 1.
Proof.
  assert (success (BaseSQLiteService.delete SessionNoteService 1 example_world).1
          = true) as Hok by (vm_compute; reflexivity).
  split; [exact Hok|].
  exact (proj1 (proj2 (delete_then_not_found SessionNoteService 1 example_world Hok))).
Defined.

(** X2: [delete] touches nothing but the rows with the given id: the rows
    of the table are those with another id, in their order, when it
    succeeds and all of them when it fails; the other tables are kept, and
    [get_by_id] of any other id answers as before. *)
Theorem delete_only_that_id (self : Service) (record_id : Z) (w : World) :
  let t := name (table (repository self)) in
  let out := BaseSQLiteService.delete self record_id w in
  rows t (db out.2) =
    (if success out.1
     then List.filter (λ r, negb (sql_eq (attr r "id") (VInt record_id)))
            (rows t (db w))
     else rows t (db w)) ∧
  (∀ t', t' ≠ t → rows t' (db out.2) = rows t' (db w)) ∧
  (∀ j, j ≠ record_id →
     (BaseSQLiteService.get_by_id self j out.2).1 =
     (BaseSQLiteService.get_by_id self j w).1).
Proof.
  intros t out. subst t out.
  unfold BaseSQLiteService.delete, BaseSQLiteService.get_by_id.
  destruct (success (BaseSQLiteRepository.get_by_id (repository self) record_id w).1)
    eqn:Hok.
  - rewrite delete_found by done. cbn [fst snd db success success_result Result_init].
    rewrite rows_set_rows. split_and!; [done | |].
    + intros t' Hne. by apply rows_set_rows_ne.
    + intros j Hne. apply get_by_id_same_rows. unfold rows_with_id. cbn [db].
      rewrite rows_set_rows. by apply filter_other_id.
  - rewrite delete_not_found by done. rewrite Hok, get_by_id_world.
    split_and!; [done | done |].
    intros j Hne. by apply get_by_id_result.
Qed.

Lemma delete_only_that_id_witness :
  (1 : Z) ≠ 2 ∧
  (BaseSQLiteService.get_by_id BcbaService 1
     (BaseSQLiteService.delete BcbaService 2 example_world).2).1 =
  (BaseSQLiteService.get_by_id BcbaService 1 example_world).1.
Proof.
  split; [lia|].
  exact (proj2 (proj2 (delete_only_that_id BcbaService 2 example_world)) 1
           ltac:(lia)).
Defined.

(** X3: [update] never changes an id and never touches a row with another
    id, whatever model it is given: the ids of the table are the same
    afterwards, in the same order, the other tables are kept, and
    [get_by_id] of any other id answers as before. *)
Theorem update_only_that_id (self : Service) (record_id : Z) (model : dict)
    (w : World) :
  let t := name (table (repository self)) in
  let out := BaseSQLiteService.update self record_id model w in
  rowids (rows t (db out.2)) = rowids (rows t (db w)) ∧
  length (rows t (db out.2)) = length (rows t (db w)) ∧
  (∀ t', t' ≠ t → rows t' (db out.2) = rows t' (db w)) ∧
  (∀ j, j ≠ record_id →
     (BaseSQLiteService.get_by_id self j out.2).1 =
     (BaseSQLiteService.get_by_id self j w).1).
Proof.
  intros t out. subst t out.
  unfold BaseSQLiteService.update, BaseSQLiteService.get_by_id.
  destruct (update_cases (repository self) record_id model w)
    as [Hdb|(bound & Hb & Hdb)]; rewrite Hdb.
  - split_and!; [done | done | done |].
    intros j _. by apply get_by_id_result.
  - rewrite rows_set_rows. split_and!.
    + by apply rowids_patched.
    + by rewrite length_fmap.
    + intros t' Hne. by apply rows_set_rows_ne.
    + intros j Hne. apply get_by_id_same_rows. unfold rows_with_id.
      rewrite Hdb, rows_set_rows. by apply filter_patched.
Qed.

Lemma update_only_that_id_witness :
  (2 : Z) ≠ 1 ∧
  (BaseSQLiteService.get_by_id SessionNoteService 2
     (BaseSQLiteService.update SessionNoteService 1 example_update
        example_world).2).1 =
  (BaseSQLiteService.get_by_id SessionNoteService 2 example_world).1.
Proof.
  split; [lia|].
  exact (proj2 (proj2 (proj2 (update_only_that_id SessionNoteService 1
                                example_update example_world))) 2 ltac:(lia)).
Defined.



(** X5: unique ids are an invariant of the three writing operations: if
    every row of the table has an integer id and no two rows share one,
    this still holds after any sequence of creates, updates and deletes,
    whatever their arguments, and at most one row has any given id. *)
Theorem ids_stay_unique (self : Service) (cs : list write_call) (w : World) :
  keyed (rows (name (table (repository self))) (db w)) →
  let w' := after_calls self cs w in
  keyed (rows (name (table (repository self))) (db w')) ∧
  ∀ j, (length (rows_with_id (repository self) j (db w')) ≤ 1)%nat.
Proof.
  intros Hk w'. subst w'.
  assert (keyed (rows (name (table (repository self)))
                   (db (after_calls self cs w)))) as Hk'.
  { revert w Hk. induction cs as [|c cs IH]; intros w Hk; [done|].
    simpl. by apply IH, call_keyed. }
  split; [done|]. intros j. by apply keyed_rows_with_id.
Qed.

Lemma ids_stay_unique_witness :
  keyed (rows Bcbas (db empty_world)) ∧
  keyed (rows Bcbas
           (db (after_calls BcbaService
                  [CallCreate example_bcba; CallCreate example_bcba; CallDelete 2;
                   CallCreate example_bcba; CallUpdate 1 example_bcba]
                  empty_world))).
Proof.
  assert (keyed (rows Bcbas (db empty_world))) as Hk
    by (split; constructor).
  split; [exact Hk|].
  exact (proj1 (ids_stay_unique BcbaService _ empty_world Hk)).
Defined.

Section loading.
Import BaseSQLiteRepository.

Context (self : Repository) (Hwm : well_mapped self).

Lemma validate_field_ext (data1 data2 : dict) f :
  data1 !! f_name f = data2 !! f_name f →
  validate_field data1 f = validate_field data2 f.
Proof. unfold validate_field. by intros ->. Qed.




(** A loadable row stays loadable when it is patched with an instance, and
    loads as the old record overwritten by the non-null fields of the
    instance. *)
Lemma patched_row_validate record_id model r old :
  validate_fields (model_fields (model_class self)) r = inr old →
  instance_of (model_class self) model →
  attr r "id" = VInt record_id →
  ∃ new,
    validate_fields (model_fields (model_class self))
      (patched_row record_id model r) = inr new ∧
    ∀ k, new !! k =
           match model !! k with
           | Some v =>
               if decide (k ≠ "id" ∧ v ≠ VNone) then Some (stored v)
               else old !! k
           | None => old !! k
           end.
Proof.
  intros Hold Hinst Hid.
  pose proof (fields_NoDup self Hwm) as Hnd.
  destruct (validate_fields_lookup _ _ _ Hnd Hold) as [Ho1 Ho2].
  set (expect := λ k, match model !! k with
                      | Some v =>
                          if decide (k ≠ "id" ∧ v ≠ VNone) then Some (stored v)
                          else old !! k
                      | None => old !! k
                      end).
  assert (∀ f, f ∈ model_fields (model_class self) →
            ∃ v, validate_field (patched_row record_id model r) f = inr v ∧
                 expect (f_name f) = Some v) as Hval.
  { intros f Hf. destruct (Ho1 f Hf) as (u & Hu & Hou).
    pose proof (patched_row_lookup record_id model r (f_name f) Hid) as Hp.
    unfold expect.
    destruct (instance_of_field _ _ _ Hnd Hinst Hf) as (v & Hv & Ht).
    rewrite Hv in Hp |- *. case_decide as Hd.
    - exists (stored v). split; [|done]. destruct Hd as [_ Hne].
      destruct Ht as [[-> _]|[_ Ht]]; [done|].
      apply validate_field_some;
        [done | by apply stored_not_none | by apply stored_has_type].
    - exists u. split; [|done]. by rewrite (validate_field_ext _ r). }
  destruct (validate_fields_total (model_fields (model_class self))
              (patched_row record_id model r)) as [new Hnew].
  { intros f Hf. destruct (Hval f Hf) as (v & ? & _). by exists v. }
  exists new. split; [done|]. intros k. change (new !! k = expect k).
  destruct (validate_fields_lookup _ _ _ Hnd Hnew) as [Hn1 Hn2].
  destruct (decide (k ∈ f_name <$> model_fields (model_class self))) as [Hin|Hn].
  - apply list_elem_of_fmap in Hin as (f & -> & Hf).
    destruct (Hn1 f Hf) as (v' & Hv' & ->).
    destruct (Hval f Hf) as (v & Hv & ->). congruence.
  - rewrite Hn2 by done. unfold expect.
    rewrite (instance_of_other _ _ _ Hnd Hinst Hn). by rewrite Ho2.
Qed.



Lemma rows_to_models_Forall2 rs ms :
  rows_to_models self rs = inr ms →
  Forall2 (λ r m, model_validate (model_class self) r = inr m) rs ms.
Proof.
  revert ms. induction rs as [|r rs IH]; simpl; intros ms.
  - intros [= <-]. constructor.
  - destruct (model_validate _ r) as [|m] eqn:Hm; [done|].
    destruct (rows_to_models self rs) as [|ms']; [done|].
    intros [= <-]. constructor; [done | by apply IH].
Qed.

Lemma rows_to_models_loadable rs :
  loadable self rs → ∃ ms, rows_to_models self rs = inr ms.
Proof.
  induction 1 as [|r rs [fields Hr] _ [ms IH]]; simpl; [by eexists|].
  unfold model_validate. rewrite Hr, IH. by eexists.
Qed.

Lemma rows_to_models_inv rs ms :
  rows_to_models self rs = inr ms → loadable self rs.
Proof.
  intros H%rows_to_models_Forall2. induction H as [|r m rs ms Hr _ IH];
    constructor; [|done].
  unfold model_validate in Hr.
  destruct (validate_fields _ r) as [|fields]; [done|]. by exists fields.
Qed.

Lemma loadable_filter (f : dict → bool) rs :
  loadable self rs → loadable self (List.filter f rs).
Proof.
  unfold loadable. rewrite !Forall_forall. intros H r Hr. apply H.
  apply list_elem_of_In. apply list_elem_of_In, List.filter_In in Hr. tauto.
Qed.

Lemma loadable_patched record_id model rs :
  instance_of (model_class self) model →
  loadable self rs → loadable self (patched_row record_id model <$> rs).
Proof.
  intros Hinst Hl. apply Forall_fmap. eapply Forall_impl; [exact Hl|]. simpl.
  intros r [old Hold].
  destruct (decide (attr r "id" = VInt record_id)) as [Hid|Hid].
  - destruct (patched_row_validate record_id model r old Hold Hinst Hid)
      as (new & Hnew & _). by exists new.
  - rewrite patched_row_other by done. by exists old.
Qed.

End loading.

Section tables.
Import BaseSQLiteRepository.

Lemma call_loadable self c w :
  well_typed_call self c →
  loadable (repository self) (rows (name (table (repository self))) (db w)) →
  loadable (repository self)
    (rows (name (table (repository self))) (db (call self c w).2)).
Proof.
  pose proof (all_services_well_mapped self) as Hwm.
  intros Hc Hl. destruct c as [model|record_id model|record_id]; simpl in *.
  - unfold BaseSQLiteService.create. rewrite create_instance_run by done.
    cbv zeta. destruct (bool_decide _); [|done]. destruct (int64 _); [|done].
    cbn [snd db]. rewrite rows_set_rows. apply Forall_app. split; [done|].
    constructor; [|constructor].
    destruct (inserted_row_validate _ Hwm model
                (next_rowid (rows (name (table (repository self))) (db w))) Hc)
      as (fields & ? & _). by exists fields.
  - unfold BaseSQLiteService.update.
    destruct (success (get_by_id (repository self) record_id w).1) eqn:Hok.
    + rewrite (update_instance_run _ Hwm) by done.
      cbv zeta. destruct (bool_decide _); [|done]. cbn [snd db].
      rewrite rows_set_rows. by apply loadable_patched.
    + by rewrite update_not_found, get_by_id_world.
  - unfold BaseSQLiteService.delete.
    destruct (success (get_by_id (repository self) record_id w).1) eqn:Hok.
    + rewrite delete_found by done. cbn [snd db]. rewrite rows_set_rows.
      by apply loadable_filter.
    + by rewrite delete_not_found, get_by_id_world.
Qed.

Lemma lookup_result_loadable self j rs :
  loadable self rs →
  status_code (lookup_result self j
                 (head (List.filter (λ r, sql_eq (attr r "id") (VInt j)) rs))) ≠ 500.
Proof.
  intros Hl. destruct (head _) as [r|] eqn:Hhead; [|done].
  apply head_Some_elem_of in Hhead.
  apply (loadable_filter self) with (f := λ r, sql_eq (attr r "id") (VInt j)) in Hl.
  unfold loadable in Hl. rewrite Forall_forall in Hl.
  destruct (Hl r Hhead) as [fields Hr].
  unfold lookup_result, model_validate. by rewrite Hr.
Qed.

End tables.



(** X7: [get_all] answers with one model per row, in storage order, when
    every row of the table loads; a single row that does not load makes the
    whole call a 500 failure. It writes nothing. *)
Theorem get_all_loads_every_row (self : Service) (w : World) :
  let t := name (table (repository self)) in
  let out := BaseSQLiteService.get_all self w in
  (loadable (repository self) (rows t (db w)) →
   ∃ models,
     out.1 = success_result (List models) ∧
     Forall2 (λ r m, model_validate (model_class (repository self)) r = inr m)
       (rows t (db w)) models) ∧
  (¬ loadable (repository self) (rows t (db w)) →
   success out.1 = false ∧ status_code out.1 = 500) ∧
  db out.2 = db w ∧ executed w out.2 = [SelectAll t].
Proof.
  intros t out. subst t out. unfold BaseSQLiteService.get_all,
    BaseSQLiteRepository.get_all, execute_select_all, bind, log, table_rows, ret.
  cbv beta iota zeta. cbn [db].
  split_and!.
  - intros Hl. destruct (rows_to_models_loadable _ _ Hl) as [ms Hms].
    rewrite Hms. exists ms. split; [done|]. by apply rows_to_models_Forall2.
  - intros Hnl.
    destruct (BaseSQLiteRepository.rows_to_models _ _) as [e|ms] eqn:Hms; [done|].
    exfalso. by apply Hnl, (rows_to_models_inv _ _ ms).
  - by destruct (BaseSQLiteRepository.rows_to_models _ _).
  - destruct (BaseSQLiteRepository.rows_to_models _ _);
      unfold executed; cbn [snd journal]; by rewrite drop_app_length.
Qed.

Lemma get_all_loads_every_row_witness :
  loadable (repository PatientService) (rows Patients (db one_patient_world)) ∧
  ∃ models,
    (BaseSQLiteService.get_all PatientService one_patient_world).1 =
      success_result (List models) ∧
    length models = length (rows Patients (db one_patient_world)).
Proof.
  assert (instance_of Patient example_patient) as Hinst by by_compute.
  assert (loadable (repository PatientService)
            (rows Patients (db one_patient_world))) as Hl
    by (apply (call_loadable PatientService (CallCreate example_patient));
        [exact Hinst | constructor]).
  split; [exact Hl|].
  destruct (proj1 (get_all_loads_every_row PatientService one_patient_world) Hl)
    as (models & Hget & HF).
  exists models. split; [exact Hget|]. symmetry. exact (Forall2_length _ _ _ HF).
Defined.

(** X8: tables stay loadable: starting from a table whose rows all load,
    after any sequence of creates, updates and deletes whose models are
    instances of the class every row still loads, whether the calls succeed
    or fail; so [get_all] succeeds and [get_by_id] of an id within the
    signed 64-bit range never answers with a 500 failure. *)
Theorem tables_stay_loadable (self : Service) (cs : list write_call) (w : World) :
  loadable (repository self) (rows (name (table (repository self))) (db w)) →
  Forall (well_typed_call self) cs →
  let w' := after_calls self cs w in
  loadable (repository self) (rows (name (table (repository self))) (db w')) ∧
  success (BaseSQLiteService.get_all self w').1 = true ∧
  ∀ j, int64 j = true →
       status_code (BaseSQLiteService.get_by_id self j w').1 ≠ 500.
Proof.
  intros Hl Hcs w'. subst w'.
  assert (loadable (repository self)
            (rows (name (table (repository self)))
               (db (after_calls self cs w)))) as Hl'.
  { revert w Hl. induction Hcs as [|c cs Hc _ IH]; intros w Hl; [done|].
    simpl. by apply IH, call_loadable. }
  split_and!; [done | |].
  - unfold BaseSQLiteService.get_all, BaseSQLiteRepository.get_all,
      execute_select_all, bind, log, table_rows, ret.
    cbv beta iota zeta. cbn [db].
    destruct (rows_to_models_loadable _ _ Hl') as [ms ->]. done.
  - intros j Hj. unfold BaseSQLiteService.get_by_id.
    rewrite get_by_id_lookup, Hj. by apply lookup_result_loadable.
Qed.

Lemma tables_stay_loadable_witness :
  loadable (repository ClinicService) (rows Clinics (db empty_world)) ∧
  Forall (well_typed_call ClinicService)
    [CallCreate example_clinic; CallUpdate 1 example_clinic; CallDelete 2] ∧
  success (BaseSQLiteService.get_all ClinicService
             (after_calls ClinicService
                [CallCreate example_clinic; CallUpdate 1 example_clinic;
                 CallDelete 2] empty_world)).1 = true.
Proof.
  assert (loadable (repository ClinicService) (rows Clinics (db empty_world)))
    as Hl by constructor.
  assert (instance_of Clinic example_clinic) as Hinst by by_compute.
  assert (Forall (well_typed_call ClinicService)
            [CallCreate example_clinic; CallUpdate 1 example_clinic; CallDelete 2])
    as Hcs by (repeat constructor; exact Hinst).
  split_and!; [exact Hl | exact Hcs |].
  exact (proj1 (proj2 (tables_stay_loadable ClinicService _ empty_world Hl Hcs))).
Defined.

(** X9: for an id within the signed 64-bit range, [get_by_bcba] answers
    with the notes whose [bcba] column equals the id, one model per such row
    in storage order, when these rows load; it does not look at the bcbas
    table. *)
Theorem get_by_bcba_lists_the_notes (bcba_id : Z) (w : World) :
  int64 bcba_id = true →
  let notes :=
    List.filter (λ r, sql_eq (attr r "bcba") (VInt bcba_id))
      (session_notes_rows (db w)) in
  loadable (repository SessionNoteService) notes →
  ∃ models,
    (get_by_bcba bcba_id w).1 = success_result (List models) ∧
    Forall2 (λ r m, model_validate SessionNote r = inr m ∧
                    attr r "bcba" = VInt bcba_id) notes models.
Proof.
  intros Hz. cbv zeta. intros Hl. unfold get_by_bcba, bind.
  rewrite execute_select_where_eq. cbn [bindable]. rewrite Hz.
  destruct (rows_to_models_loadable _ _ Hl) as [ms Hms].
  change (session_notes_rows (db w))
    with (rows (name (table (repository SessionNoteService))) (db w)) in Hms.
  rewrite Hms. exists ms. split; [done|].
  apply rows_to_models_Forall2 in Hms.
  remember (List.filter _ _) as notes eqn:Hn.
  assert (Forall (λ r, attr r "bcba" = VInt bcba_id) notes) as Hb.
  { subst notes. apply Forall_forall. intros r Hr.
    apply list_elem_of_In, List.filter_In in Hr as [_ Hr]. by apply sql_eq_VInt. }
  clear Hn Hl. induction Hms as [|r m rs ms' Hr _ IH]; [constructor|].
  apply Forall_cons in Hb as [Hb1 Hb2]. constructor; [done | by apply IH].
Qed.

Lemma get_by_bcba_lists_the_notes_witness :
  int64 1 = true ∧
  loadable (repository SessionNoteService)
    (List.filter (λ r, sql_eq (attr r "bcba") (VInt 1))
       (session_notes_rows (db one_note_world))) ∧
  ∃ models,
    (get_by_bcba 1 one_note_world).1 = success_result (List models) ∧
    length models = 1%nat.
Proof.
  assert (instance_of SessionNote example_note) as Hinst by by_compute.
  assert (loadable (repository SessionNoteService)
            (List.filter (λ r, sql_eq (attr r "bcba") (VInt 1))
               (session_notes_rows (db one_note_world)))) as Hl
    by (apply loadable_filter,
          (call_loadable SessionNoteService (CallCreate example_note));
        [exact Hinst | constructor]).
  split_and!; [reflexivity | exact Hl |].
  destruct (get_by_bcba_lists_the_notes 1 one_note_world eq_refl Hl)
    as (models & Hget & HF).
  exists models. split; [exact Hget|].
  rewrite <-(Forall2_length _ _ _ HF). vm_compute. reflexivity.
Defined.

Section validated_creation_success.
Import BaseSQLiteRepository.





End validated_creation_success.



Section detail_reads_more.






Lemma join_details_head d n p ps b bs :
  List.filter (λ p, sql_eq (attr n "patient") (attr p "id")) (patients_rows d)
    = p :: ps →
  List.filter (λ b, sql_eq (attr n "bcba") (attr b "id")) (bcbas_rows d)
    = b :: bs →
  head (join_details d n) =
    Some (joined_row n p
            (head (List.filter (λ c, sql_eq (attr n "clinic") (attr c "id"))
                     (clinics_rows d))) b).
Proof.
  intros Hp Hb. unfold join_details. rewrite Hp, Hb.
  by destruct (List.filter _ (clinics_rows d)).
Qed.

End detail_reads_more.



(** X12: what the by-id detail read reports for a note whose patient and
    BCBA exist: the patient's first and last name joined by a space, the
    BCBA's name, the appointment time in ISO format, and as clinic name the
    name of the referenced clinic, or "No Clinic" when no clinic row
    matches the reference or when the clinic's name is empty. The id of a
    stored note is within the signed 64-bit range. *)
Theorem details_report_names (w : World) (note_id : Z) (n : dict) (ns : list dict)
    (p : dict) (ps : list dict) (b : dict) (bs : list dict) (d : datetime) :
  int64 note_id = true →
  List.filter (λ r, sql_eq (attr r "id") (VInt note_id))
    (session_notes_rows (db w)) = n :: ns →
  List.filter (λ p, sql_eq (attr n "patient") (attr p "id")) (patients_rows (db w))
    = p :: ps →
  List.filter (λ b, sql_eq (attr n "bcba") (attr b "id")) (bcbas_rows (db w))
    = b :: bs →
  attr n "apt_date" = VDateTime d →
  ∃ note : dict,
    (get_by_id_with_details note_id w).1 = success_result (Dict note) ∧
    note !! "patient_name" =
      Some (VStr (py_str (attr p "first_name") +:+ " " +:+
                  py_str (attr p "last_name"))) ∧
    note !! "bcba_name" = Some (attr b "name") ∧
    note !! "apt_date" = Some (VStr (isoformat d)) ∧
    note !! "clinic_name" =
      Some (match List.filter (λ c, sql_eq (attr n "clinic") (attr c "id"))
                    (clinics_rows (db w)) with
            | [] => VStr "No Clinic"
            | c :: _ =>
                if truthy (attr c "name") then attr c "name"
                else VStr "No Clinic"
            end).
Proof.
  intros Hz Hn Hp Hb Hapt. unfold get_by_id_with_details, bind.
  rewrite execute_select_details_eq. cbn [bindable]. rewrite Hz, Hn, bind_cons.
  pose proof (join_details_head _ _ _ _ _ _ Hp Hb) as Hhead.
  destruct (join_details (db w) n) as [|row rows']; [done|].
  injection Hhead as ->. cbn [app head].
  unfold note_with_details. rewrite joined_row_apt_date, Hapt.
  cbn [apt_date_isoformat truthy]. eexists. split; [done|].
  assert (∀ c, attr (joined_row n p c b) "clinic_name" =
               from_option (λ c, attr c "name") VNone c) as Hname.
  { intros c. unfold joined_row, attr.
    by rewrite !lookup_insert_ne, lookup_insert_eq by done. }
  assert (attr (joined_row n p
                  (head (List.filter (λ c, sql_eq (attr n "clinic") (attr c "id"))
                           (clinics_rows (db w)))) b) "bcba_name" = attr b "name")
    as Hbcba.
  { unfold joined_row, attr.
    by rewrite !lookup_insert_ne, lookup_insert_eq by done. }
  assert (attr (joined_row n p
                  (head (List.filter (λ c, sql_eq (attr n "clinic") (attr c "id"))
                           (clinics_rows (db w)))) b) "patient_first_name"
          = attr p "first_name") as Hfirst.
  { unfold joined_row, attr. by rewrite lookup_insert_eq. }
  assert (attr (joined_row n p
                  (head (List.filter (λ c, sql_eq (attr n "clinic") (attr c "id"))
                           (clinics_rows (db w)))) b) "patient_last_name"
          = attr p "last_name") as Hlast.
  { unfold joined_row, attr.
    by rewrite !lookup_insert_ne, lookup_insert_eq by done. }
  split_and!.
  - simplify_map_eq. by rewrite Hfirst, Hlast.
  - simplify_map_eq. by rewrite Hbcba.
  - by simplify_map_eq.
  - simplify_map_eq. rewrite Hname.
    by destruct (List.filter _ (clinics_rows (db w))) as [|c cs].
Qed.

Lemma details_report_names_witness :
  let n := inserted_row (repository SessionNoteService)
             (new_SessionNote 1 1 (Some 1) example_apt_date (Some 60) (Some "x")) 1 in
  let p := inserted_row (repository PatientService) example_patient 1 in
  let b := inserted_row (repository BcbaService) example_bcba 1 in
  int64 1 = true ∧
  List.filter (λ r, sql_eq (attr r "id") (VInt 1))
    (session_notes_rows (db unnamed_clinic_world)) = [n] ∧
  List.filter (λ p, sql_eq (attr n "patient") (attr p "id"))
    (patients_rows (db unnamed_clinic_world)) = [p] ∧
  List.filter (λ b, sql_eq (attr n "bcba") (attr b "id"))
    (bcbas_rows (db unnamed_clinic_world)) = [b] ∧
  attr n "apt_date" = VDateTime (naive example_apt_date) ∧
  ∃ note : dict,
    (get_by_id_with_details 1 unnamed_clinic_world).1 = success_result (Dict note) ∧
    note !! "clinic_name" = Some (VStr "No Clinic") ∧
    note !! "patient_name" = Some (VStr "John Doe").
Proof.
  intros n p b.
  assert (List.filter (λ r, sql_eq (attr r "id") (VInt 1))
            (session_notes_rows (db unnamed_clinic_world)) = [n]) as Hn
    by by_compute.
  assert (List.filter (λ p, sql_eq (attr n "patient") (attr p "id"))
            (patients_rows (db unnamed_clinic_world)) = [p]) as Hp by by_compute.
  assert (List.filter (λ b, sql_eq (attr n "bcba") (attr b "id"))
            (bcbas_rows (db unnamed_clinic_world)) = [b]) as Hb by by_compute.
  assert (attr n "apt_date" = VDateTime (naive example_apt_date)) as Hapt
    by by_compute.
  split_and!; [reflexivity | exact Hn | exact Hp | exact Hb | exact Hapt |].
  destruct (details_report_names unnamed_clinic_world 1 n [] p [] b []
              (naive example_apt_date) eq_refl Hn Hp Hb Hapt)
    as (note & Hget & Hpn & _ & _ & Hcn).
  exists note. split_and!; [exact Hget | |].
  - rewrite Hcn. apply (f_equal Some). by_compute.
  - rewrite Hpn. apply (f_equal Some). by_compute.
Defined.

(** X13: [to_response] is [to_dict] without the [success] and [status_code]
    keys: the response has the single key [data] or [error], so the status
    code of a failure is not part of it and failures that differ only in
    their status code have the same response. *)
Theorem to_response_drops_status (r : Result) (e : string) (c1 c2 : option Z) :
  to_response r =
    delete Payload.success (delete Payload.status_code (to_dict r)) ∧
  size (to_response r) = 1%nat ∧
  to_response r !! Payload.status_code = None ∧
  to_response (error_result e c1) = to_response (error_result e c2).
Proof.
  split_and!.
  - unfold to_response, to_dict, Payload.success, Payload.status_code,
      Payload.payload, Payload.error.
    destruct (success r);
      rewrite (delete_insert_ne _ "status_code") by done;
      rewrite delete_insert_eq;
      rewrite (delete_insert_ne _ "status_code") by done;
      rewrite delete_empty;
      rewrite (delete_insert_ne _ "success") by done;
      rewrite delete_insert_eq, delete_empty;
      by rewrite insert_empty.
  - unfold to_response. destruct (success r); apply map_size_singleton.
  - unfold to_response. by destruct (success r).
  - done.
Qed.

(** X14: a status code of 0 counts as no status code: the constructor
    replaces it by 200 for a success and by 500 for a failure, also through
    [error_result]; every other code is kept as given. *)
Theorem zero_status_code_is_replaced (s : bool) (d : object) (e : option string)
    (msg : string) (c : Z) :
  status_code (Result_init s d e (Some 0)) = (if s then 200 else 500) ∧
  status_code (error_result msg (Some 0)) = 500 ∧
  (c ≠ 0 →
   status_code (Result_init s d e (Some c)) = c ∧
   status_code (error_result msg (Some c)) = c).
Proof.
  split_and!; [done | done |]. intros Hc.
  unfold error_result, Result_init. simpl. by destruct (Z.eqb_spec c 0).
Qed.

Lemma zero_status_code_is_replaced_witness :
  (404 : Z) ≠ 0 ∧
  status_code (error_result "gone" (Some 404)) = 404 ∧
  status_code (error_result "gone" (Some 0)) = 500.
Proof.
  assert ((404 : Z) ≠ 0) as H by lia.
  destruct (zero_status_code_is_replaced false ONone None "gone" 404)
    as (_ & H0 & Hc).
  split_and!; [exact H | exact (proj2 (Hc H)) | exact H0].
Defined.

Section editing.
Import BaseSQLiteRepository.






End editing.



(** X16: PUT /api/session-notes/{id} on an absent id. The handler raises no
    HTTPException: after the one existence check it answers with the body
    that holds the message of the failed check under [error], the not-found
    message for an id within the signed 64-bit range and the driver's
    overflow error for an id outside it, and the tables are untouched. *)
Theorem edit_session_note_absent (note_id : Z)
    (request : main.EditSessionNoteRequest) (w : World) :
  absent SessionNotes note_id (db w) →
  main.edit_session_note note_id request w =
    (inr {[ Payload.error :=
              Scalar (VStr (if int64 note_id
                            then "Record with ID " +:+ pretty note_id +:+
                                 " not found"
                            else "Error fetching record: " +:+ OverflowError)) ]},
     logged w [existence_check SessionNoteService note_id]).
Proof.
  intros Habs. unfold main.edit_session_note, BaseSQLiteService.get_by_id, bind.
  destruct (int64 note_id) eqn:Hz.
  - by rewrite get_by_id_absent.
  - by rewrite get_by_id_overflow.
Qed.

Lemma edit_session_note_absent_witness :
  absent SessionNotes 7 (db example_world) ∧
  db (main.edit_session_note 7 example_edit example_world).2 = db example_world ∧
  ∃ body, (main.edit_session_note 7 example_edit example_world).1 = inr body ∧
          size body = 1%nat.
Proof.
  assert (absent SessionNotes 7 (db example_world)) as Habs by by_compute.
  split; [exact Habs|].
  rewrite (edit_session_note_absent 7 example_edit example_world Habs).
  split; [done|]. eexists. split; [done|]. apply map_size_singleton.
Defined.

Section integers.
Import BaseSQLiteRepository.

Lemma storable_union (m1 m2 : dict) : storable m1 → storable m2 → storable (m1 ∪ m2).
Proof.
  intros H1 H2 k v [Hk|[_ Hk]]%lookup_union_Some_raw; [exact (H1 _ _ Hk)|].
  exact (H2 _ _ Hk).
Qed.

Lemma storable_null_row cols : storable (null_row cols).
Proof.
  intros k v. rewrite null_row_lookup. case_decide; [|done]. by intros [= <-].
Qed.

Lemma storable_insert_id (r : dict) n :
  int64 n = true → storable r → storable (<["id" := VInt n]> r).
Proof.
  intros Hn Hr k v. destruct (decide (k = "id")) as [->|Hne].
  - rewrite lookup_insert_eq. by intros [= <-].
  - rewrite lookup_insert_ne by done. apply Hr.
Qed.

Lemma Forall_filter_list {A} (P : A → Prop) (f : A → bool) l :
  Forall P l → Forall P (List.filter f l).
Proof.
  rewrite !Forall_forall. intros H x Hx. apply H.
  apply list_elem_of_In. apply list_elem_of_In, List.filter_In in Hx. tauto.
Qed.

(** No call of a writing operation brings an integer outside 64 bits into
    the table, whatever its arguments. *)
Lemma call_storable self c w :
  Forall storable (rows (name (table (repository self))) (db w)) →
  Forall storable (rows (name (table (repository self))) (db (call self c w).2)).
Proof.
  intros Hrs. destruct c as [model|record_id model|record_id]; simpl.
  - unfold BaseSQLiteService.create, create, execute_insert, bind, log,
      table_rows, ret, commit.
    cbv beta iota zeta. cbn [db journal clock].
    destruct (negb _); [done|].
    destruct (bind_values _ _) as [|bound] eqn:Hb; [done|].
    destruct (bool_decide (storable bound)) eqn:Hs; [|done]. cbn [negb].
    apply bool_decide_eq_true in Hs.
    assert (attr (bound ∪ null_row (columns (table (repository self)))) "id"
            = VNone) as ->.
    { unfold attr. rewrite lookup_union_r
        by (apply (bind_values_None _ _ _ _ Hb), model_to_dict_id).
      rewrite null_row_lookup. by case_decide. }
    destruct (int64 _) eqn:Hn; [|done].
    destruct (null_violation _ _); [done|].
    cbn [snd db]. rewrite rows_set_rows. apply Forall_app. split; [done|].
    constructor; [|constructor].
    by apply storable_insert_id, storable_union, storable_null_row.
  - unfold BaseSQLiteService.update, update, bind. rewrite get_by_id_run.
    destruct (negb _); [done|].
    unfold execute_update, bind, log, table_rows, ret, commit.
    cbv beta iota zeta. cbn [db journal clock logged].
    destruct (negb _); [done|].
    destruct (bind_values _ _) as [|bound] eqn:Hb; [done|].
    destruct (bool_decide (storable bound)) eqn:Hs; [|done].
    apply bool_decide_eq_true in Hs.
    destruct (int64 record_id); [|done]. cbn [andb negb].
    destruct (null_violation _ _); [by destruct (existsb _ _)|].
    cbn [snd db]. rewrite rows_set_rows. apply Forall_fmap.
    eapply Forall_impl; [exact Hrs|]. intros r Hr. unfold compose.
    destruct (sql_eq (attr r "id") (VInt record_id));
      [by apply storable_union | done].
  - unfold BaseSQLiteService.delete.
    destruct (success (get_by_id (repository self) record_id w).1) eqn:Hok.
    + rewrite delete_found by done. cbn [snd db]. rewrite rows_set_rows.
      by apply Forall_filter_list.
    + by rewrite delete_not_found, get_by_id_world.
Qed.

End integers.

(** X17: no integer outside the signed 64-bit range ever reaches a table:
    if every cell of the table can be bound, this still holds after any
    sequence of creates, updates and deletes, whatever their arguments, and
    every id of the table is within that range. *)
Theorem rows_stay_storable (self : Service) (cs : list write_call) (w : World) :
  Forall storable (rows (name (table (repository self))) (db w)) →
  let w' := after_calls self cs w in
  Forall storable (rows (name (table (repository self))) (db w')) ∧
  ∀ z, z ∈ rowids (rows (name (table (repository self))) (db w')) →
       int64 z = true.
Proof.
  intros Hrs w'. subst w'.
  assert (Forall storable (rows (name (table (repository self)))
                             (db (after_calls self cs w)))) as Hrs'.
  { revert w Hrs. induction cs as [|c cs IH]; intros w Hrs; [done|].
    simpl. by apply IH, call_storable. }
  split; [done|]. intros z (r & Hr & Hz)%list_elem_of_omap.
  rewrite Forall_forall in Hrs'. specialize (Hrs' r Hr).
  destruct (r !! "id") as [[| |z'| | |]|] eqn:Hid; try done.
  injection Hz as ->. exact (Hrs' _ _ Hid).
Qed.

Lemma rows_stay_storable_witness :
  Forall storable (rows SessionNotes (db empty_world)) ∧
  Forall storable
    (rows SessionNotes
       (db (after_calls SessionNoteService
              [CallCreate example_note;
               CallUpdate 1 (new_SessionNote 1 1 None example_apt_date
                               (Some 9223372036854775808) None);
               CallCreate example_update]
              empty_world))).
Proof.
  assert (Forall storable (rows SessionNotes (db empty_world))) as Hrs
    by constructor.
  split; [exact Hrs|].
  exact (proj1 (rows_stay_storable SessionNoteService _ empty_world Hrs)).
Defined.
